(** * CPF: gerador e validador (validar_gerar_cpf)

    Shallow embedding of [gerador_de_cpf.py] and [validador_cpf.py] and the
    properties of their modulo-11 check digits.

    Python values are modelled as follows.
    - [int] is [Z] (unbounded); [%] with the positive divisor 11 is [Z.modulo].
    - [str] is [string]: the model covers the strings whose code points are
      below 256.  On those, the regular-expression class [\d] and the
      one-character conversion [int(c)] are defined exactly on ['0'..'9'].
    - an exception is a value of [excecao]; a call returns a [resultado].
    - [random.randint(0, 9)] is an oracle [randint : nat -> Z] giving the value
      of the i-th call.
    - [print] has no effect on the returned value and is left out. *)

From Stdlib Require Import ZArith Lia List Bool Ascii String DecimalString.
Import ListNotations.

Open Scope string_scope.
Open Scope Z_scope.

(** ** The Python runtime used by the two files *)

Module Py.

Inductive excecao : Type := ValueError | IndexError.

Inductive resultado (A : Type) : Type :=
| Retorna (a : A)
| Levanta (e : excecao).

Arguments Retorna {A} a.
Arguments Levanta {A} e.

Definition liga {A B : Type} (m : resultado A) (k : A -> resultado B) :
  resultado B :=
  match m with
  | Retorna a => k a
  | Levanta e => Levanta e
  end.

(** [str(z)] for an integer. *)
Definition str_int (z : Z) : string := NilZero.string_of_int (Z.to_int z).

(** The class [\d], and the characters [int] accepts as a one-character
    string. *)
Definition e_decimal (c : ascii) : bool :=
  let n := N_of_ascii c in ((48 <=? n) && (n <=? 57))%N.

(** [int(c)] for a one-character string [c]. *)
Definition int_char (c : ascii) : resultado Z :=
  if e_decimal c then Retorna (Z.of_N (N_of_ascii c) - 48)
  else Levanta ValueError.

(** [s.replace(old, new)] for a one-character [old]. *)
Fixpoint replace_char (old : ascii) (new : string) (s : string) : string :=
  match s with
  | EmptyString => EmptyString
  | String c s' =>
      if Ascii.eqb c old then new ++ replace_char old new s'
      else String c (replace_char old new s')
  end.

(** [c.isspace()] on code points below 256. *)
Definition isspace (c : ascii) : bool :=
  let n := N_of_ascii c in
  (((9 <=? n) && (n <=? 13)) || ((28 <=? n) && (n <=? 32))
   || (n =? 133) || (n =? 160))%N.

Fixpoint lstrip (s : string) : string :=
  match s with
  | EmptyString => EmptyString
  | String c s' => if isspace c then lstrip s' else s
  end.

Fixpoint rstrip (s : string) : string :=
  match s with
  | EmptyString => EmptyString
  | String c s' =>
      match rstrip s' with
      | EmptyString => if isspace c then EmptyString else String c EmptyString
      | r => String c r
      end
  end.

(** [s.strip()] *)
Definition strip (s : string) : string := rstrip (lstrip s).

(** [s[i:j]] for [0 <= i <= j]. *)
Definition fatia (i j : nat) (s : string) : string := substring i (j - i) s.

(** [s[i]] for [0 <= i]. *)
Definition indice (s : string) (i : nat) : resultado ascii :=
  match String.get i s with
  | Some c => Retorna c
  | None => Levanta IndexError
  end.

(** The fragment of [re] the two patterns use: [^], [\d{n}], an escaped or
    plain literal character, and [$], which holds at the end of the string
    and also just before a newline that ends it. *)
Inductive re_item : Type :=
| Inicio
| Digitos (n : nat)
| Literal (c : ascii)
| Fim.

Fixpoint consome_digitos (n : nat) (s : string) : option string :=
  match n with
  | O => Some s
  | S n' =>
      match s with
      | String c s' => if e_decimal c then consome_digitos n' s' else None
      | EmptyString => None
      end
  end.

Definition nova_linha : ascii := ascii_of_nat 10.

Definition no_fim (s : string) : bool :=
  match s with
  | EmptyString => true
  | String c EmptyString => Ascii.eqb c nova_linha
  | _ => false
  end.

Fixpoint casa (p : list re_item) (pos : nat) (s : string) : bool :=
  match p with
  | [] => true
  | Inicio :: p' => Nat.eqb pos 0 && casa p' pos s
  | Digitos n :: p' =>
      match consome_digitos n s with
      | Some s' => casa p' (pos + n) s'
      | None => false
      end
  | Literal c :: p' =>
      match s with
      | String c' s' => Ascii.eqb c' c && casa p' (S pos) s'
      | EmptyString => false
      end
  | Fim :: p' => no_fim s && casa p' pos s
  end.

(** [re.match(p, s)], as a truth value. *)
Definition re_match (p : list re_item) (s : string) : bool := casa p 0 s.

End Py.

Import Py.

Notation "x <- m ;; k" := (liga m (fun x => k))
  (at level 61, m at next level, right associativity).

(** ** The loop shared by the four check-digit computations

    Each of the four loops of the two files reads
[[
    for i in <digits>:
        soma += int(i) * index
        index -= 1
]]
    [acumular] runs it from the given [soma] and [index] and returns both. *)

Fixpoint acumular (digitos : string) (soma index : Z) : resultado (Z * Z) :=
  match digitos with
  | EmptyString => Retorna (soma, index)
  | String i resto =>
      v <- int_char i ;;
      acumular resto (soma + v * index) (index - 1)
  end.

(** The values a run of the check-digit block leaves in its variables: the
    two sums, and the two digits after the final adjustment. *)
Record calculo : Type := Calculo {
  soma_um : Z;
  soma_dois : Z;
  digito_um : Z;
  digito_dois : Z
}.

(** ** gerador_de_cpf.py *)

Module Gerador.

(** Lines 49-51: nine calls of [random.randint(0, 9)], each appended as
    text. *)
Definition sortear (randint : nat -> Z) : string :=
  fold_left (fun cpf i => cpf ++ str_int (randint i)) (seq 0 9) "".

(** Lines 56-83. *)
Definition calcular (cpf : string) : resultado calculo :=
  r1 <- acumular (fatia 0 9 cpf) 0 10 ;;
  let soma1 := fst r1 in
  let digito_um := 11 - soma1 mod 11 in
  r2 <- acumular (fatia 0 9 cpf ++ str_int digito_um) 0 11 ;;
  let soma2 := fst r2 in
  let digito_dois := 11 - soma2 mod 11 in
  let digito_um := if digito_um >? 9 then 0 else digito_um in
  let digito_dois := if digito_dois >? 9 then 0 else digito_dois in
  Retorna (Calculo soma1 soma2 digito_um digito_dois).

(** Line 87. *)
Definition formatar (cpf : string) (c : calculo) : string :=
  fatia 0 3 cpf ++ "." ++ fatia 3 6 cpf ++ "." ++ fatia 6 9 cpf ++ "-"
    ++ str_int (digito_um c) ++ str_int (digito_dois c).

Definition gerar_cpf (randint : nat -> Z) : resultado string :=
  let cpf := sortear randint in
  c <- calcular cpf ;;
  Retorna (formatar cpf c).

End Gerador.

(** ** validador_cpf.py *)

Module Validador.

Definition padrao_cpf : list re_item :=
  [Inicio; Digitos 3; Literal "."; Digitos 3; Literal "."; Digitos 3;
   Literal "-"; Digitos 2; Fim].

Definition padrao_cpf_sem_formatacao : list re_item :=
  [Inicio; Digitos 11; Fim].

(** Line 41. *)
Definition sem_espacos (cpf : string) : string := replace_char " " "" cpf.

(** The condition of line 48. *)
Definition formato_incorreto (cpf : string) : bool :=
  negb (re_match padrao_cpf_sem_formatacao cpf)
  && negb (re_match padrao_cpf cpf).

(** Line 55. *)
Definition limpar (cpf : string) : string :=
  strip (replace_char "-" "" (replace_char "." "" cpf)).

(** Lines 59-86. *)
Definition calcular (cpf_limpo : string) : resultado calculo :=
  r1 <- acumular (fatia 0 9 cpf_limpo) 0 10 ;;
  let soma1 := fst r1 in
  let digito_um := 11 - soma1 mod 11 in
  r2 <- acumular (fatia 0 10 cpf_limpo) 0 11 ;;
  let soma2 := fst r2 in
  let digito_dois := 11 - soma2 mod 11 in
  let digito_um := if digito_um >? 9 then 0 else digito_um in
  let digito_dois := if digito_dois >? 9 then 0 else digito_dois in
  Retorna (Calculo soma1 soma2 digito_um digito_dois).

(** Lines 90-97. *)
Definition conferir (cpf_limpo : string) (c : calculo) : resultado bool :=
  c9 <- indice cpf_limpo 9 ;;
  v9 <- int_char c9 ;;
  if v9 =? digito_um c then
    c10 <- indice cpf_limpo 10 ;;
    v10 <- int_char c10 ;;
    if v10 =? digito_dois c then Retorna true else Retorna false
  else Retorna false.

Definition validar_cpf (cpf : string) : resultado bool :=
  let cpf := sem_espacos cpf in
  if formato_incorreto cpf then Retorna false
  else
    let cpf_limpo := limpar cpf in
    c <- calcular cpf_limpo ;;
    conferir cpf_limpo c.

End Validador.

Import Gerador Validador.

(** ** Digits and their characters *)

Definition digito (d : Z) : Prop := 0 <= d <= 9.

(** The character of a digit value, and the value of a digit character. *)
Definition digito_char (d : Z) : ascii := ascii_of_N (Z.to_N (48 + d)).

Definition valor (c : ascii) : Z := Z.of_N (N_of_ascii c) - 48.

Definition texto (ds : list Z) : string :=
  string_of_list_ascii (map digito_char ds).

Definition valores (s : string) : list Z :=
  map valor (list_ascii_of_string s).

(** ** The check digits as the specification words them *)

Module Spec.

(** Weights 10, 9, ..., 2 for the nine base digits. *)
Definition pesos_1 : list Z := [10; 9; 8; 7; 6; 5; 4; 3; 2].

(** Weights 11, 10, ..., 2 for the base digits followed by check digit 1. *)
Definition pesos_2 : list Z := [11; 10; 9; 8; 7; 6; 5; 4; 3; 2].

(** Sum of digit times weight, position by position. *)
Definition soma_ponderada (digitos pesos : list Z) : Z :=
  fold_right Z.add 0 (map (fun dw => fst dw * snd dw) (combine digitos pesos)).

(** 11 minus the remainder, and 0 when that exceeds 9. *)
Definition digito_de (soma : Z) : Z :=
  let d := 11 - soma mod 11 in if d >? 9 then 0 else d.

Definition check_digit_1 (base : list Z) : Z :=
  digito_de (soma_ponderada base pesos_1).

Definition check_digit_2 (base : list Z) : Z :=
  digito_de (soma_ponderada (base ++ [check_digit_1 base]) pesos_2).

(** A digit sequence is valid when the recomputed check digits are its 10th
    and 11th digits. *)
Definition sequencia_valida (digitos : list Z) : bool :=
  let base := firstn 9 digitos in
  (check_digit_1 base =? nth 9 digitos 0)
  && (check_digit_2 base =? nth 10 digitos 0).

Definition e_digito (c : ascii) : bool :=
  existsb (Ascii.eqb c)
    ["0"; "1"; "2"; "3"; "4"; "5"; "6"; "7"; "8"; "9"]%char.

(** Shape (a): DDD.DDD.DDD-DD, and shape (b): eleven digits. *)
Definition forma_a (s : string) : bool :=
  match list_ascii_of_string s with
  | [a; b; c; p; d; e; f; q; g; h; i; t; j; k] =>
      forallb e_digito [a; b; c; d; e; f; g; h; i; j; k]
      && Ascii.eqb p "." && Ascii.eqb q "." && Ascii.eqb t "-"
  | _ => false
  end.

Definition forma_b (s : string) : bool :=
  (Nat.eqb (String.length s) 11) && forallb e_digito (list_ascii_of_string s).

(** The five steps of validation: strip the spaces, match one of the two
    shapes, strip '.' and '-', recompute the check digits from the nine base
    digits, compare them with the 10th and 11th digits. *)
Definition validate (input : string) : bool :=
  let stripped := replace_char " " "" input in
  if forma_a stripped || forma_b stripped then
    let raw := replace_char "-" "" (replace_char "." "" stripped) in
    sequencia_valida (valores raw)
  else false.

End Spec.

(** ** Sums, draws and texts of digits *)

(** The sum the loop adds to [soma], on the digit values. *)
Fixpoint pesar (ds : list Z) (index : Z) : Z :=
  match ds with
  | [] => 0
  | d :: resto => d * index + pesar resto (index - 1)
  end.

(** The final adjustment of a check digit (lines 80-83 and 83-86). *)
Definition ajustar (d : Z) : Z := if d >? 9 then 0 else d.

(** Generation followed by validation of what was generated. *)
Definition gerar_e_validar (randint : nat -> Z) : resultado bool :=
  cpf <- gerar_cpf randint ;; validar_cpf cpf.

Definition sorteio_valido (randint : nat -> Z) : Prop :=
  forall i, digito (randint i).

Definition base_sorteada (randint : nat -> Z) : list Z :=
  map randint (seq 0 9).

(** A draw whose first nine digits are 1 to 9. *)
Definition um_a_nove (i : nat) : Z := Z.of_nat (S i) mod 10.

(** Whether a character occurs in a string. *)
Fixpoint ocorre (c : ascii) (s : string) : bool :=
  match s with
  | EmptyString => false
  | String x s' => Ascii.eqb x c || ocorre c s'
  end.

(** The punctuated text of eleven digits: DDD.DDD.DDD-DD. *)
Definition pontuar (ds : list Z) : string :=
  texto (firstn 3 ds) ++ "." ++ texto (firstn 3 (skipn 3 ds)) ++ "."
    ++ texto (firstn 3 (skipn 6 ds)) ++ "-" ++ texto (skipn 9 ds).

(** Eleven digits, and nine. *)
Definition onze_digitos (ds : list Z) : Prop :=
  List.length ds = 11%nat /\ Forall digito ds.

Definition nove_digitos (base : list Z) : Prop :=
  List.length base = 9%nat /\ Forall digito base.

(** The comparison of lines 90-91 on the digit values, with the check digits
    as lines 59-86 compute them: the second one from the first ten digits
    supplied. *)
Definition conferido (ds : list Z) : bool :=
  (nth 9 ds 0 =? ajustar (11 - pesar (firstn 9 ds) 10 mod 11))
  && (nth 10 ds 0 =? ajustar (11 - pesar (firstn 10 ds) 11 mod 11)).

(** The characters [str] gives the first digit before its adjustment, which
    lies between 1 and 11: one digit, or the two of "10" and "11". *)
Definition decimais (u : Z) : list Z := if u >? 9 then [1; u - 10] else [u].

(** The second sum of the generator: over the base digits and then the
    characters of the unadjusted first digit. *)
Definition soma_dois_gerador (base : list Z) : Z :=
  pesar (base ++ decimais (11 - pesar base 10 mod 11)) 11.

(** The digits of the text the generator returns. *)
Definition gerados (base : list Z) : list Z :=
  base ++ [ajustar (11 - pesar base 10 mod 11);
           ajustar (11 - soma_dois_gerador base mod 11)].

(** *** Changing one digit *)

Definition algarismos : list Z := [0; 1; 2; 3; 4; 5; 6; 7; 8; 9].

Definition restos : list Z := [0; 1; 2; 3; 4; 5; 6; 7; 8; 9; 10].

(** With the rest of a sum being [r] and a digit of weight [w] being [d] or
    [e], whether the two adjusted check digits are the same. *)
Definition coincide (w r d e : Z) : bool :=
  ajustar (11 - (r + d * w) mod 11) =? ajustar (11 - (r + e * w) mod 11).

Definition nunca_coincide (w d e : Z) : bool :=
  forallb (fun r => negb (coincide w r d e)) restos.

(** A digit of weight [w] in the first sum has weight [w + 1] in the second:
    the change of [d] into [e] shows in one of the two check digits. *)
Definition troca_detectada (w d e : Z) : bool :=
  (d =? e) || nunca_coincide w d e || nunca_coincide (w + 1) d e.

(** The weights of the first sum at which every change is seen. *)
Definition pesos_seguros : list Z := [2; 3; 4; 6; 7; 8; 9].

(** ** The documented examples *)

Example ex_doc_1 : validar_cpf "123.456.789-09" = Retorna true.
Proof. reflexivity. Qed.
Example ex_doc_2 : validar_cpf "12345678909" = Retorna true.
Proof. reflexivity. Qed.
Example ex_doc_3 : validar_cpf "123.456.789-10" = Retorna false.
Proof. reflexivity. Qed.
Example ex_doc_4 : validar_cpf "abc.def.ghi-jk" = Retorna false.
Proof. reflexivity. Qed.
Example ex_doc_5 : validar_cpf "123.456.789" = Retorna false.
Proof. reflexivity. Qed.
Example ex_joao : validar_cpf "  145 3822 0620" = Retorna true.
Proof. reflexivity. Qed.

(** ** Lemmas on the runtime *)

Lemma digito_casos (d : Z) :
  digito d ->
  d = 0 \/ d = 1 \/ d = 2 \/ d = 3 \/ d = 4 \/ d = 5 \/ d = 6 \/ d = 7
  \/ d = 8 \/ d = 9.
Proof. unfold digito; lia. Qed.

Ltac por_digito H :=
  apply digito_casos in H;
  repeat (destruct H as [H | H]); subst.

Lemma str_int_digito (d : Z) :
  digito d -> str_int d = String (digito_char d) "".
Proof. intros H; por_digito H; reflexivity. Qed.

Lemma int_char_digito (d : Z) :
  digito d -> int_char (digito_char d) = Retorna d.
Proof. intros H; por_digito H; reflexivity. Qed.

Lemma e_decimal_digito (d : Z) :
  digito d -> e_decimal (digito_char d) = true.
Proof. intros H; por_digito H; reflexivity. Qed.

Lemma valor_digito_char (d : Z) :
  digito d -> valor (digito_char d) = d.
Proof. intros H; por_digito H; reflexivity. Qed.

Lemma e_decimal_valor (c : ascii) :
  e_decimal c = true -> digito (valor c) /\ c = digito_char (valor c).
Proof.
  unfold e_decimal, valor, digito, digito_char; intros H.
  apply andb_true_iff in H as [H1 H2].
  apply N.leb_le in H1, H2.
  split; [lia|].
  replace (Z.to_N (48 + (Z.of_N (N_of_ascii c) - 48))) with (N_of_ascii c)
    by lia.
  now rewrite ascii_N_embedding.
Qed.

Lemma int_char_retorna (c : ascii) (v : Z) :
  int_char c = Retorna v -> e_decimal c = true /\ v = valor c.
Proof.
  unfold int_char; destruct (e_decimal c); [|discriminate].
  intros [= <-]; auto.
Qed.

Lemma digito_nao_separador (c : ascii) :
  e_decimal c = true ->
  Ascii.eqb c "." = false /\ Ascii.eqb c "-" = false
  /\ Ascii.eqb c " " = false /\ isspace c = false
  /\ Spec.e_digito c = true.
Proof.
  intros H; destruct (e_decimal_valor c H) as [Hd Hc].
  remember (valor c) as d eqn:E; clear E H; subst c.
  por_digito Hd; repeat split; reflexivity.
Qed.

(** *** Digit texts *)

Lemma texto_cons (d : Z) (ds : list Z) :
  texto (d :: ds) = String (digito_char d) (texto ds).
Proof. reflexivity. Qed.

Lemma texto_app (a b : list Z) : texto (a ++ b) = texto a ++ texto b.
Proof.
  induction a as [|d a IH]; [reflexivity|].
  rewrite <- app_comm_cons, !texto_cons, IH; reflexivity.
Qed.

Lemma valores_texto (ds : list Z) :
  Forall digito ds -> valores (texto ds) = ds.
Proof.
  unfold valores, texto; intros H.
  rewrite list_ascii_of_string_of_list_ascii, map_map.
  induction H as [|d ds Hd _ IH]; simpl; [reflexivity|].
  now rewrite valor_digito_char, IH.
Qed.

Lemma e_decimal_texto (ds : list Z) :
  Forall digito ds ->
  forallb e_decimal (list_ascii_of_string (texto ds)) = true.
Proof.
  unfold texto; rewrite list_ascii_of_string_of_list_ascii.
  intros H; induction H as [|d l Hx _ IH]; [reflexivity|].
  cbn [map forallb]; rewrite e_decimal_digito, IH by assumption.
  reflexivity.
Qed.

Lemma length_texto (ds : list Z) : String.length (texto ds) = List.length ds.
Proof.
  induction ds as [|d ds IH]; [reflexivity|].
  rewrite texto_cons; simpl; now rewrite IH.
Qed.

Lemma append_vazio (s : string) : s ++ "" = s.
Proof. induction s as [|c s IH]; simpl; [|rewrite IH]; reflexivity. Qed.

Lemma append_assoc (a b c : string) : (a ++ b) ++ c = a ++ (b ++ c).
Proof. induction a as [|x a IH]; simpl; [|rewrite IH]; reflexivity. Qed.

(** *** [replace] *)

Lemma replace_char_app (old : ascii) (new a b : string) :
  replace_char old new (a ++ b)
  = replace_char old new a ++ replace_char old new b.
Proof.
  induction a as [|c a IH]; simpl; [reflexivity|].
  destruct (Ascii.eqb c old); simpl; rewrite IH;
    [now rewrite append_assoc | reflexivity].
Qed.

Lemma replace_char_texto (old : ascii) (new : string) (ds : list Z) :
  e_decimal old = false -> Forall digito ds ->
  replace_char old new (texto ds) = texto ds.
Proof.
  intros Ho H; induction H as [|d ds Hd _ IH]; [reflexivity|].
  rewrite texto_cons; simpl.
  destruct (Ascii.eqb (digito_char d) old) eqn:E.
  - apply Ascii.eqb_eq in E; subst old.
    rewrite e_decimal_digito in Ho by assumption; discriminate.
  - now rewrite IH.
Qed.

Lemma sem_espacos_idem (s : string) :
  sem_espacos (sem_espacos s) = sem_espacos s.
Proof.
  unfold sem_espacos; induction s as [|c s IH]; simpl; [reflexivity|].
  destruct (Ascii.eqb c " ") eqn:E; simpl; [exact IH|].
  now rewrite E, IH.
Qed.

Lemma sem_espacos_app (a b : string) :
  sem_espacos (a ++ b) = sem_espacos a ++ sem_espacos b.
Proof. apply replace_char_app. Qed.

Lemma sem_espacos_limpo (s : string) : ocorre " " (sem_espacos s) = false.
Proof.
  unfold sem_espacos; induction s as [|c s IH]; simpl; [reflexivity|].
  destruct (Ascii.eqb c " ") eqn:E; simpl; [exact IH|].
  now rewrite E, IH.
Qed.

Lemma sem_espacos_sem_ocorrencia (s : string) :
  ocorre " " s = false -> sem_espacos s = s.
Proof.
  unfold sem_espacos; induction s as [|c s IH]; simpl; [reflexivity|].
  intros H; apply orb_false_iff in H as [H1 H2].
  now rewrite H1, IH.
Qed.

(** *** [strip] *)

Lemma rstrip_texto_app (ds : list Z) (r : string) :
  Forall digito ds -> rstrip (texto ds ++ r) = texto ds ++ rstrip r.
Proof.
  intros H; induction H as [|d ds Hd _ IH]; [reflexivity|].
  rewrite texto_cons; simpl; rewrite IH.
  destruct (texto ds ++ rstrip r); [|reflexivity].
  destruct (digito_nao_separador _ (e_decimal_digito d Hd))
    as (_ & _ & _ & -> & _).
  reflexivity.
Qed.

Lemma strip_texto_app (ds : list Z) (r : string) :
  Forall digito ds -> ds <> [] -> strip (texto ds ++ r) = texto ds ++ rstrip r.
Proof.
  intros H Hne; unfold strip.
  destruct H as [|d ds Hd Hds]; [congruence|].
  rewrite texto_cons; simpl.
  destruct (digito_nao_separador _ (e_decimal_digito d Hd))
    as (_ & _ & _ & -> & _).
  change (rstrip (texto (d :: ds) ++ r) = texto (d :: ds) ++ rstrip r).
  apply rstrip_texto_app; now constructor.
Qed.

(** *** Slices and indices *)

Lemma fatia_texto (n : nat) (ds : list Z) :
  fatia 0 n (texto ds) = texto (firstn n ds).
Proof.
  unfold fatia; rewrite Nat.sub_0_r; revert ds.
  induction n as [|n IH]; intros [|d ds]; try reflexivity.
  rewrite texto_cons; simpl; now rewrite IH.
Qed.

Lemma indice_texto (i : nat) (ds : list Z) :
  (i < List.length ds)%nat ->
  indice (texto ds) i = Retorna (digito_char (nth i ds 0)).
Proof.
  unfold indice; revert ds.
  induction i as [|i IH]; intros [|d ds] H; simpl in H; try lia.
  - reflexivity.
  - rewrite texto_cons; simpl. apply IH; lia.
Qed.

(** *** The loop *)

Lemma acumular_texto (ds : list Z) (soma index : Z) :
  Forall digito ds ->
  acumular (texto ds) soma index
  = Retorna (soma + pesar ds index, index - Z.of_nat (List.length ds)).
Proof.
  intros H; revert soma index.
  induction H as [|d ds Hd _ IH]; intros soma index.
  - simpl; do 2 f_equal; lia.
  - rewrite texto_cons; cbn [acumular].
    rewrite int_char_digito by assumption; cbn [liga].
    rewrite IH; cbn [pesar List.length]; do 2 f_equal; lia.
Qed.

(** Whatever the characters, a loop that ends has added the weighted digit
    values. *)
Lemma acumular_retorna (s : string) (soma index : Z) (r : Z * Z) :
  acumular s soma index = Retorna r ->
  fst r = soma + pesar (valores s) index
  /\ forallb e_decimal (list_ascii_of_string s) = true.
Proof.
  revert soma index; induction s as [|c s IH]; intros soma index.
  - simpl; intros [= <-]; simpl; split; [lia | reflexivity].
  - cbn [acumular]. destruct (int_char c) as [v|e] eqn:E; [|discriminate].
    cbn [liga]; intros H. apply int_char_retorna in E as [Ec ->].
    apply IH in H as [H1 H2]. unfold valores in *; simpl.
    rewrite Ec, H2; split; [lia | reflexivity].
Qed.

Lemma pesar_app (a b : list Z) (index : Z) :
  pesar (a ++ b) index
  = pesar a index + pesar b (index - Z.of_nat (List.length a)).
Proof.
  revert index; induction a as [|d a IH]; intros index.
  - simpl; now rewrite Z.sub_0_r.
  - cbn [app pesar List.length]. rewrite IH. 
    replace (index - 1 - Z.of_nat (List.length a))
      with (index - Z.of_nat (S (List.length a))) by lia.
    lia.
Qed.

(** On nine and on ten digits the loop weights are the specification's. *)
Lemma pesar_pesos_1 (base : list Z) :
  List.length base = 9%nat ->
  pesar base 10 = Spec.soma_ponderada base Spec.pesos_1.
Proof.
  intros H.
  do 10 (destruct base as [|? base]; try discriminate).
  unfold Spec.soma_ponderada; simpl; lia.
Qed.

Lemma pesar_pesos_2 (ds : list Z) :
  List.length ds = 10%nat -> pesar ds 11 = Spec.soma_ponderada ds Spec.pesos_2.
Proof.
  intros H.
  do 11 (destruct ds as [|? ds]; try discriminate).
  unfold Spec.soma_ponderada; simpl; lia.
Qed.

Lemma ajustar_digito (soma : Z) : digito (ajustar (11 - soma mod 11)).
Proof.
  unfold ajustar, digito.
  pose proof (Z.mod_pos_bound soma 11 ltac:(lia)).
  destruct (Z.gtb_spec (11 - soma mod 11) 9); lia.
Qed.

Lemma ajustar_spec (soma : Z) :
  ajustar (11 - soma mod 11) = Spec.digito_de soma.
Proof. reflexivity. Qed.

Arguments texto : simpl never.
Arguments digito_char : simpl never.

(** *** The two patterns *)

Lemma consome_digitos_inv (n : nat) (s r : string) :
  consome_digitos n s = Some r ->
  exists ds, List.length ds = n /\ Forall digito ds /\ s = texto ds ++ r.
Proof.
  revert s; induction n as [|n IH]; intros s H; simpl in H.
  - injection H as <-. exists []; repeat split; constructor.
  - destruct s as [|c s]; [discriminate|].
    destruct (e_decimal c) eqn:E; [|discriminate].
    apply IH in H as (ds & Hl & Hd & ->).
    apply e_decimal_valor in E as [E1 E2].
    exists (valor c :: ds). rewrite texto_cons, <- E2; simpl.
    repeat split; [now rewrite Hl | now constructor].
Qed.

Lemma consome_digitos_texto (ds : list Z) (r : string) :
  Forall digito ds ->
  consome_digitos (List.length ds) (texto ds ++ r) = Some r.
Proof.
  intros H; induction H as [|d ds Hd _ IH]; [reflexivity|].
  rewrite texto_cons; simpl. now rewrite e_decimal_digito.
Qed.

Lemma no_fim_inv (r : string) :
  no_fim r = true -> r = "" \/ r = String nova_linha "".
Proof.
  destruct r as [|c [|? ?]]; simpl; try discriminate; auto.
  intros H; apply Ascii.eqb_eq in H; subst; auto.
Qed.

Ltac lista_de_digitos :=
  repeat (apply Forall_cons; [assumption|]); apply Forall_nil.

Ltac abrir_lista l :=
  repeat (destruct l as [|? l]; try discriminate).

Lemma casa_sem_formatacao (cpf : string) :
  re_match padrao_cpf_sem_formatacao cpf = true <->
  exists ds r, onze_digitos ds /\ no_fim r = true /\ cpf = texto ds ++ r.
Proof.
  unfold re_match, padrao_cpf_sem_formatacao; cbn [casa Nat.eqb andb].
  split.
  - destruct (consome_digitos 11 cpf) as [r|] eqn:E; [|discriminate].
    intros H; apply andb_true_iff in H as [H _].
    apply consome_digitos_inv in E as (ds & Hl & Hd & ->).
    exists ds, r; repeat split; assumption.
  - intros (ds & r & [Hl Hd] & Hr & ->).
    rewrite <- Hl, consome_digitos_texto, Hr by assumption; reflexivity.
Qed.

Lemma pontuar_partes (a b c d : list Z) (r : string) :
  List.length a = 3%nat -> List.length b = 3%nat ->
  List.length c = 3%nat -> List.length d = 2%nat ->
  pontuar (a ++ b ++ c ++ d) ++ r
  = texto a ++ String "." (texto b ++ String "." (texto c
      ++ String "-" (texto d ++ r))).
Proof.
  intros Ha Hb Hc Hd.
  abrir_lista a; abrir_lista b; abrir_lista c; abrir_lista d.
  reflexivity.
Qed.

Lemma partes_de_onze (ds : list Z) :
  onze_digitos ds ->
  exists a b c d : list Z,
    ds = (a ++ b ++ c ++ d)%list
    /\ List.length a = 3%nat /\ List.length b = 3%nat
    /\ List.length c = 3%nat /\ List.length d = 2%nat
    /\ Forall digito a /\ Forall digito b /\ Forall digito c
    /\ Forall digito d.
Proof.
  intros [Hl Hd].
  exists (firstn 3 ds), (firstn 3 (skipn 3 ds)), (firstn 3 (skipn 6 ds)),
    (skipn 9 ds).
  abrir_lista ds.
  repeat match goal with H : Forall _ (_ :: _) |- _ => inversion_clear H end.
  simpl; repeat (split; [reflexivity|]).
  repeat split; repeat (apply Forall_cons; [assumption|]); apply Forall_nil.
Qed.

Lemma casa_padrao_cpf (cpf : string) :
  re_match padrao_cpf cpf = true <->
  exists ds r, onze_digitos ds /\ no_fim r = true /\ cpf = pontuar ds ++ r.
Proof.
  unfold re_match, padrao_cpf; split.
  - cbn [casa Nat.eqb andb].
    destruct (consome_digitos 3 cpf) as [s1|] eqn:E1; [|discriminate].
    apply consome_digitos_inv in E1 as (a & La & Ha & ->).
    destruct s1 as [|p1 s1]; [discriminate|].
    destruct (Ascii.eqb p1 ".") eqn:P1; [|discriminate].
    apply Ascii.eqb_eq in P1; subst p1; cbn [andb].
    destruct (consome_digitos 3 s1) as [s2|] eqn:E2; [|discriminate].
    apply consome_digitos_inv in E2 as (b & Lb & Hb & ->).
    destruct s2 as [|p2 s2]; [discriminate|].
    destruct (Ascii.eqb p2 ".") eqn:P2; [|discriminate].
    apply Ascii.eqb_eq in P2; subst p2; cbn [andb].
    destruct (consome_digitos 3 s2) as [s3|] eqn:E3; [|discriminate].
    apply consome_digitos_inv in E3 as (c & Lc & Hc & ->).
    destruct s3 as [|p3 s3]; [discriminate|].
    destruct (Ascii.eqb p3 "-") eqn:P3; [|discriminate].
    apply Ascii.eqb_eq in P3; subst p3; cbn [andb].
    destruct (consome_digitos 2 s3) as [r|] eqn:E4; [|discriminate].
    apply consome_digitos_inv in E4 as (d & Ld & Hd & ->).
    intros H; apply andb_true_iff in H as [Hr _].
    exists (a ++ b ++ c ++ d)%list, r; split; [|split; [exact Hr|]].
    + split; [rewrite !length_app; lia|].
      repeat (apply Forall_app; split); assumption.
    + symmetry; now apply pontuar_partes.
  - intros (ds & r & Hds & Hr & ->).
    destruct (partes_de_onze ds Hds)
      as (a & b & c & d & -> & La & Lb & Lc & Ld & Ha & Hb & Hc & Hd).
    rewrite pontuar_partes by assumption.
    cbn [casa Nat.eqb andb].
    rewrite <- La at 1; rewrite consome_digitos_texto by assumption.
    cbn [Ascii.eqb Bool.eqb andb]. 
    rewrite <- Lb at 1; rewrite consome_digitos_texto by assumption.
    cbn [Ascii.eqb Bool.eqb andb]. 
    rewrite <- Lc at 1; rewrite consome_digitos_texto by assumption.
    cbn [Ascii.eqb Bool.eqb andb]. 
    rewrite <- Ld at 1; rewrite consome_digitos_texto by assumption.
    now rewrite Hr.
Qed.

(** *** Line 55 on an accepted string *)

Lemma rstrip_no_fim (r : string) : no_fim r = true -> rstrip r = "".
Proof. intros H; apply no_fim_inv in H as [-> | ->]; reflexivity. Qed.

Lemma replace_char_no_fim (old : ascii) (r : string) :
  Ascii.eqb nova_linha old = false -> no_fim r = true ->
  replace_char old "" r = r.
Proof.
  intros Ho H; apply no_fim_inv in H as [-> | ->]; cbn [replace_char];
    [reflexivity|].
  now rewrite Ho.
Qed.

Lemma onze_nao_vazio (ds : list Z) : onze_digitos ds -> ds <> [].
Proof. intros [Hl _] ->; discriminate. Qed.

Lemma limpar_texto (ds : list Z) (r : string) :
  onze_digitos ds -> no_fim r = true -> limpar (texto ds ++ r) = texto ds.
Proof.
  intros Hds Hr; unfold limpar.
  rewrite !replace_char_app, !replace_char_texto by (reflexivity || apply Hds).
  rewrite (replace_char_no_fim "." r), (replace_char_no_fim "-" r)
    by (reflexivity || assumption).
  rewrite strip_texto_app by (apply Hds || now apply onze_nao_vazio).
  now rewrite rstrip_no_fim, append_vazio.
Qed.

Lemma limpar_pontuar (ds : list Z) (r : string) :
  onze_digitos ds -> no_fim r = true -> limpar (pontuar ds ++ r) = texto ds.
Proof.
  intros Hds Hr.
  destruct (partes_de_onze ds Hds)
    as (a & b & c & d & -> & La & Lb & Lc & Ld & Ha & Hb & Hc & Hd).
  rewrite pontuar_partes by assumption.
  rewrite <- (limpar_texto _ r Hds Hr).
  unfold limpar; f_equal.
  rewrite !texto_app, !append_assoc.
  repeat (rewrite ?replace_char_app, ?replace_char_texto
            by (reflexivity || assumption);
          cbn [replace_char Ascii.eqb Bool.eqb append]).
  reflexivity.
Qed.

Lemma formato_inv (cpf : string) :
  formato_incorreto cpf = false ->
  exists ds r,
    onze_digitos ds /\ no_fim r = true
    /\ (cpf = texto ds ++ r \/ cpf = pontuar ds ++ r)
    /\ limpar cpf = texto ds.
Proof.
  unfold formato_incorreto; intros H.
  apply andb_false_iff in H as [H | H]; apply negb_false_iff in H.
  - apply casa_sem_formatacao in H as (ds & r & Hds & Hr & ->).
    exists ds, r; repeat split; try apply Hds; auto using limpar_texto.
  - apply casa_padrao_cpf in H as (ds & r & Hds & Hr & ->).
    exists ds, r; repeat split; try apply Hds; auto using limpar_pontuar.
Qed.

Lemma formato_texto (ds : list Z) (r : string) :
  onze_digitos ds -> no_fim r = true ->
  formato_incorreto (texto ds ++ r) = false.
Proof.
  intros Hds Hr; unfold formato_incorreto.
  replace (re_match padrao_cpf_sem_formatacao (texto ds ++ r)) with true;
    [reflexivity|].
  symmetry; apply casa_sem_formatacao; eauto.
Qed.

Lemma formato_pontuar (ds : list Z) (r : string) :
  onze_digitos ds -> no_fim r = true ->
  formato_incorreto (pontuar ds ++ r) = false.
Proof.
  intros Hds Hr; unfold formato_incorreto.
  replace (re_match padrao_cpf (pontuar ds ++ r)) with true;
    [apply andb_false_r|].
  symmetry; apply casa_padrao_cpf; eauto.
Qed.

(** *** The validator on eleven digits *)

Lemma digito_firstn (n : nat) (ds : list Z) :
  Forall digito ds -> Forall digito (firstn n ds).
Proof.
  intros H; revert n; induction H; intros [|n]; simpl; constructor; auto.
Qed.

Lemma digito_nth (i : nat) (ds : list Z) :
  Forall digito ds -> digito (nth i ds 0).
Proof.
  intros H; revert i; induction H; intros [|i]; simpl; auto;
    unfold digito; lia.
Qed.

Lemma validador_calcular_texto (ds : list Z) :
  Forall digito ds ->
  Validador.calcular (texto ds)
  = Retorna (Calculo (pesar (firstn 9 ds) 10) (pesar (firstn 10 ds) 11)
               (ajustar (11 - pesar (firstn 9 ds) 10 mod 11))
               (ajustar (11 - pesar (firstn 10 ds) 11 mod 11))).
Proof.
  intros H; unfold Validador.calcular.
  rewrite !fatia_texto, !acumular_texto by now apply digito_firstn.
  cbn [liga fst]; rewrite !Z.add_0_l; reflexivity.
Qed.

Lemma conferir_texto (ds : list Z) (c : calculo) :
  onze_digitos ds ->
  conferir (texto ds) c
  = Retorna ((nth 9 ds 0 =? digito_um c) && (nth 10 ds 0 =? digito_dois c)).
Proof.
  intros [Hl Hd]; unfold conferir.
  rewrite !indice_texto by (rewrite Hl; lia); cbn [liga].
  rewrite !int_char_digito by now apply digito_nth.
  cbn [liga].
  destruct (nth 9 ds 0 =? digito_um c); [|reflexivity].
  cbn [liga].
  destruct (nth 10 ds 0 =? digito_dois c); reflexivity.
Qed.

Lemma validar_cpf_incorreto (s : string) :
  formato_incorreto (sem_espacos s) = true -> validar_cpf s = Retorna false.
Proof. unfold validar_cpf; now intros ->. Qed.

Lemma validar_cpf_aceito (s : string) (ds : list Z) :
  formato_incorreto (sem_espacos s) = false ->
  onze_digitos ds -> limpar (sem_espacos s) = texto ds ->
  validar_cpf s = Retorna (conferido ds).
Proof.
  intros Hf Hds Hl; unfold validar_cpf.
  rewrite Hf, Hl, validador_calcular_texto by apply Hds.
  cbn [liga]; now rewrite conferir_texto.
Qed.

Lemma validar_cpf_formato (s : string) :
  formato_incorreto (sem_espacos s) = false ->
  let ds := valores (limpar (sem_espacos s)) in
  onze_digitos ds /\ limpar (sem_espacos s) = texto ds
  /\ validar_cpf s = Retorna (conferido ds).
Proof.
  intros Hf; destruct (formato_inv _ Hf) as (ds & r & Hds & Hr & _ & Hl).
  cbn zeta; rewrite Hl, valores_texto by apply Hds.
  repeat split; try apply Hds. now apply validar_cpf_aceito.
Qed.

(** *** The generator on nine drawn digits *)

Lemma base_sorteada_nove (randint : nat -> Z) :
  sorteio_valido randint -> nove_digitos (base_sorteada randint).
Proof.
  intros H; split; [reflexivity|].
  unfold base_sorteada; apply Forall_map, Forall_forall; intros i _; apply H.
Qed.

Lemma sortear_texto (randint : nat -> Z) :
  sorteio_valido randint -> sortear randint = texto (base_sorteada randint).
Proof.
  intros H; unfold sortear, base_sorteada; cbn [fold_left seq map].
  rewrite !str_int_digito by apply H. reflexivity.
Qed.

Lemma str_int_decimais (u : Z) :
  1 <= u <= 11 -> str_int u = texto (decimais u).
Proof.
  intros H.
  assert (u = 1 \/ u = 2 \/ u = 3 \/ u = 4 \/ u = 5 \/ u = 6 \/ u = 7
          \/ u = 8 \/ u = 9 \/ u = 10 \/ u = 11) as C by lia.
  repeat (destruct C as [C | C]); subst; reflexivity.
Qed.

Lemma decimais_digito (u : Z) : 1 <= u <= 11 -> Forall digito (decimais u).
Proof.
  intros H; unfold decimais, digito.
  destruct (Z.gtb_spec u 9); repeat constructor; lia.
Qed.

Lemma resto_11 (soma : Z) : 1 <= 11 - soma mod 11 <= 11.
Proof. pose proof (Z.mod_pos_bound soma 11 ltac:(lia)); lia. Qed.

Lemma gerador_calcular_texto (base : list Z) :
  nove_digitos base ->
  Gerador.calcular (texto base)
  = Retorna (Calculo (pesar base 10) (soma_dois_gerador base)
               (ajustar (11 - pesar base 10 mod 11))
               (ajustar (11 - soma_dois_gerador base mod 11))).
Proof.
  intros [Hl Hd]; unfold Gerador.calcular, soma_dois_gerador.
  rewrite fatia_texto.
  replace (firstn 9 base) with base by (rewrite <- Hl; now rewrite firstn_all).
  rewrite acumular_texto by assumption; cbn [liga fst]; rewrite Z.add_0_l.
  rewrite str_int_decimais, <- texto_app by apply resto_11.
  rewrite acumular_texto
    by (apply Forall_app; split; [assumption | apply decimais_digito, resto_11]).
  cbn [liga fst]; rewrite Z.add_0_l; reflexivity.
Qed.

Lemma formatar_texto (base : list Z) (c : calculo) :
  nove_digitos base -> digito (digito_um c) -> digito (digito_dois c) ->
  formatar (texto base) c = pontuar (base ++ [digito_um c; digito_dois c]).
Proof.
  intros [Hl Hd] H1 H2; unfold formatar.
  rewrite !str_int_digito by assumption.
  abrir_lista base. reflexivity.
Qed.

Lemma gerados_onze (base : list Z) :
  nove_digitos base -> onze_digitos (gerados base).
Proof.
  intros [Hl Hd]; unfold gerados; split.
  - rewrite length_app, Hl; reflexivity.
  - apply Forall_app; split; [assumption|].
    repeat constructor; apply ajustar_digito.
Qed.

Lemma gerar_cpf_texto (randint : nat -> Z) :
  sorteio_valido randint ->
  gerar_cpf randint = Retorna (pontuar (gerados (base_sorteada randint))).
Proof.
  intros H; pose proof (base_sorteada_nove _ H) as Hb.
  unfold gerar_cpf; rewrite sortear_texto by assumption.
  rewrite gerador_calcular_texto by assumption; cbn [liga].
  rewrite formatar_texto by (assumption || apply ajustar_digito).
  reflexivity.
Qed.

Lemma sem_espacos_texto (ds : list Z) :
  Forall digito ds -> sem_espacos (texto ds) = texto ds.
Proof. intros H; now apply replace_char_texto. Qed.

Lemma sem_espacos_pontuar (ds : list Z) :
  onze_digitos ds -> sem_espacos (pontuar ds) = pontuar ds.
Proof.
  intros Hds.
  destruct (partes_de_onze ds Hds)
    as (a & b & c & d & -> & La & Lb & Lc & Ld & Ha & Hb & Hc & Hd).
  rewrite <- (append_vazio (pontuar _)), pontuar_partes by assumption.
  unfold sem_espacos.
  repeat (rewrite ?replace_char_app, ?replace_char_texto
            by (reflexivity || assumption);
          cbn [replace_char Ascii.eqb Bool.eqb append]).
  reflexivity.
Qed.

Lemma validar_cpf_pontuar (ds : list Z) :
  onze_digitos ds -> validar_cpf (pontuar ds) = Retorna (conferido ds).
Proof.
  intros Hds; apply validar_cpf_aceito; [| assumption |];
    rewrite sem_espacos_pontuar, <- (append_vazio (pontuar ds)) by assumption.
  - now apply formato_pontuar.
  - now apply limpar_pontuar.
Qed.

Lemma validar_cpf_texto (ds : list Z) :
  onze_digitos ds -> validar_cpf (texto ds) = Retorna (conferido ds).
Proof.
  intros Hds.
  pose proof (formato_texto ds "" Hds eq_refl) as Hf.
  pose proof (limpar_texto ds "" Hds eq_refl) as Hl.
  rewrite append_vazio in Hf, Hl.
  apply validar_cpf_aceito; [| assumption |];
    now rewrite sem_espacos_texto by apply Hds.
Qed.

(** *** The code's check digits and the specification's *)

Lemma firstn_dez_onze (ds : list Z) :
  onze_digitos ds -> firstn 10 ds = (firstn 9 ds ++ [nth 9 ds 0])%list.
Proof. intros [Hl _]; abrir_lista ds; reflexivity. Qed.

Lemma conferido_spec (ds : list Z) :
  onze_digitos ds -> conferido ds = Spec.sequencia_valida ds.
Proof.
  intros Hds.
  unfold conferido, Spec.sequencia_valida, Spec.check_digit_2,
    Spec.check_digit_1.
  assert (List.length (firstn 9 ds) = 9%nat) as L9
    by (rewrite length_firstn, (proj1 Hds); reflexivity).
  rewrite firstn_dez_onze by assumption.
  rewrite <- pesar_pesos_2 by (rewrite length_app, L9; reflexivity).
  rewrite <- pesar_pesos_1, <- !ajustar_spec by assumption.
  rewrite (Z.eqb_sym (ajustar _) (nth 9 ds 0)),
    (Z.eqb_sym (ajustar _) (nth 10 ds 0)).
  destruct (Z.eqb_spec (nth 9 ds 0)
              (ajustar (11 - pesar (firstn 9 ds) 10 mod 11))) as [E | E];
    [|reflexivity].
  now rewrite <- E.
Qed.

Lemma firstn_nove (base l : list Z) :
  nove_digitos base -> firstn 9 (base ++ l) = base.
Proof. intros [Hl _]; abrir_lista base; reflexivity. Qed.

Lemma firstn_dez (base l : list Z) (d : Z) :
  nove_digitos base -> firstn 10 (base ++ d :: l) = (base ++ [d])%list.
Proof. intros [Hl _]; abrir_lista base; reflexivity. Qed.

(** Every nine digits are the digits of some draw. *)
Lemma toda_base_sorteavel (base : list Z) :
  nove_digitos base ->
  exists randint, sorteio_valido randint /\ base_sorteada randint = base.
Proof.
  intros [Hl Hd]; exists (fun i => nth i base 0); split.
  - intros i; now apply digito_nth.
  - abrir_lista base; reflexivity.
Qed.

Lemma ajustar_zero (soma : Z) :
  soma mod 11 = 0 \/ soma mod 11 = 1 -> ajustar (11 - soma mod 11) = 0.
Proof. intros [-> | ->]; reflexivity. Qed.

(** *** The shape of a punctuated text *)

Lemma e_digito_digito_char (d : Z) :
  digito d -> Spec.e_digito (digito_char d) = true.
Proof. intros H; por_digito H; reflexivity. Qed.

Lemma forma_a_pontuar (ds : list Z) :
  onze_digitos ds -> Spec.forma_a (pontuar ds) = true.
Proof.
  intros [Hl Hd]; abrir_lista ds.
  repeat match goal with H : Forall _ (_ :: _) |- _ => inversion_clear H end.
  unfold Spec.forma_a, pontuar, texto.
  cbn [firstn skipn map string_of_list_ascii append list_ascii_of_string
       forallb].
  rewrite !e_digito_digito_char by assumption. reflexivity.
Qed.

Lemma length_pontuar (ds : list Z) :
  onze_digitos ds -> String.length (pontuar ds) = 14%nat.
Proof. intros [Hl _]; abrir_lista ds; reflexivity. Qed.

(** *** Where the generator's second digit is the specification's *)

Lemma ajustar_deslocado (p k : Z) :
  k = 2 \/ k = 3 ->
  (ajustar (11 - (p + k) mod 11) =? ajustar (11 - p mod 11)) = false.
Proof.
  intros Hk; rewrite <- Z.add_mod_idemp_l by lia.
  pose proof (Z.mod_pos_bound p 11 ltac:(lia)) as Hr.
  remember (p mod 11) as r eqn:E; clear E.
  assert (r = 0 \/ r = 1 \/ r = 2 \/ r = 3 \/ r = 4 \/ r = 5 \/ r = 6
          \/ r = 7 \/ r = 8 \/ r = 9 \/ r = 10) as C by lia.
  destruct Hk; subst k;
    repeat (destruct C as [C | C]); subst r; reflexivity.
Qed.

(** The generator's second digit is the specification's second check digit
    exactly when the first digit needs no adjustment. *)
Lemma gerador_digito_dois_spec (base : list Z) :
  nove_digitos base ->
  (ajustar (11 - soma_dois_gerador base mod 11) =? Spec.check_digit_2 base)
  = negb (11 - pesar base 10 mod 11 >? 9).
Proof.
  intros Hb; unfold Spec.check_digit_2, Spec.check_digit_1, soma_dois_gerador.
  rewrite <- pesar_pesos_2 by (rewrite length_app, (proj1 Hb); reflexivity).
  rewrite <- pesar_pesos_1, <- !ajustar_spec by apply Hb.
  pose proof (resto_11 (pesar base 10)) as Hu.
  remember (11 - pesar base 10 mod 11) as u eqn:E; clear E.
  rewrite !pesar_app, (proj1 Hb); unfold ajustar at 3, decimais.
  destruct (Z.gtb_spec u 9) as [G | G]; cbn [negb].
  - cbn [pesar].
    replace (pesar base 11 + (0 * (11 - Z.of_nat 9) + 0))
      with (pesar base 11) by lia.
    replace (1 * (11 - Z.of_nat 9) + ((u - 10) * (11 - Z.of_nat 9 - 1) + 0))
      with (if u =? 10 then 2 else 3)
      by (destruct (Z.eqb_spec u 10); lia).
    apply ajustar_deslocado; destruct (Z.eqb_spec u 10); auto.
  - apply Z.eqb_refl.
Qed.

Lemma conferido_gerados (base : list Z) :
  nove_digitos base ->
  conferido (gerados base) = negb (11 - pesar base 10 mod 11 >? 9).
Proof.
  intros Hb; rewrite conferido_spec by now apply gerados_onze.
  unfold Spec.sequencia_valida, gerados.
  rewrite firstn_nove by assumption.
  replace (nth 9 (base ++ _) 0) with (ajustar (11 - pesar base 10 mod 11))
    by (destruct Hb as [Hl _]; abrir_lista base; reflexivity).
  replace (nth 10 (base ++ _) 0)
    with (ajustar (11 - soma_dois_gerador base mod 11))
    by (destruct Hb as [Hl _]; abrir_lista base; reflexivity).
  rewrite <- gerador_digito_dois_spec by assumption.
  rewrite (Z.eqb_sym (Spec.check_digit_2 base)).
  unfold Spec.check_digit_1.
  rewrite <- pesar_pesos_1, <- ajustar_spec, Z.eqb_refl by apply Hb.
  reflexivity.
Qed.

(** The round trip succeeds exactly on the draws whose first check digit
    needs no adjustment. *)
Lemma gerar_e_validar_resultado (randint : nat -> Z) :
  sorteio_valido randint ->
  gerar_e_validar randint
  = Retorna (negb (11 - pesar (base_sorteada randint) 10 mod 11 >? 9)).
Proof.
  intros H; pose proof (base_sorteada_nove _ H) as Hb.
  unfold gerar_e_validar; rewrite gerar_cpf_texto by assumption; cbn [liga].
  rewrite validar_cpf_pontuar by now apply gerados_onze.
  now rewrite conferido_gerados.
Qed.

(** *** The accepted strings and the two shapes *)

Lemma e_digito_e_decimal (c : ascii) : Spec.e_digito c = e_decimal c.
Proof. destruct c as [[] [] [] [] [] [] [] []]; reflexivity. Qed.

Lemma forallb_e_digito (l : list ascii) :
  forallb Spec.e_digito l = forallb e_decimal l.
Proof.
  induction l as [|c l IH]; simpl; [|rewrite IH, e_digito_e_decimal];
    reflexivity.
Qed.

Lemma texto_valores (s : string) :
  forallb e_decimal (list_ascii_of_string s) = true ->
  Forall digito (valores s) /\ s = texto (valores s).
Proof.
  induction s as [|c s IH]; [split; [constructor | reflexivity]|].
  cbn [list_ascii_of_string forallb]; intros H.
  apply andb_true_iff in H as [Hc Hs].
  destruct (IH Hs) as [IH1 IH2]; destruct (e_decimal_valor c Hc) as [Hv Ec].
  unfold valores in *; cbn [list_ascii_of_string map].
  split; [now constructor|].
  now rewrite texto_cons, <- Ec, <- IH2.
Qed.

Lemma length_valores (s : string) :
  List.length (valores s) = String.length s.
Proof.
  unfold valores; rewrite length_map.
  induction s as [|c s IH]; simpl; [|rewrite IH]; reflexivity.
Qed.

Lemma forma_b_onze (t : string) :
  Spec.forma_b t = true <-> exists ds, onze_digitos ds /\ t = texto ds.
Proof.
  unfold Spec.forma_b; split.
  - intros H; apply andb_true_iff in H as [Hl Hd].
    apply Nat.eqb_eq in Hl.
    rewrite forallb_e_digito in Hd.
    destruct (texto_valores t Hd) as [Hv Et].
    exists (valores t); repeat split; try assumption.
    now rewrite length_valores.
  - intros (ds & [Hl Hd] & ->).
    rewrite length_texto, Hl, forallb_e_digito.
    now rewrite e_decimal_texto.
Qed.

Lemma forma_a_onze (t : string) :
  Spec.forma_a t = true <-> exists ds, onze_digitos ds /\ t = pontuar ds.
Proof.
  split.
  - intros H.
    destruct t as [|x0 [|x1 [|x2 [|p [|x3 [|x4 [|x5 [|q [|x6 [|x7 [|x8
      [|h [|x9 [|x10 [|? ?]]]]]]]]]]]]]]]; try discriminate.
    unfold Spec.forma_a in H; cbn [list_ascii_of_string forallb] in H.
    repeat rewrite andb_true_iff in H.
    rewrite !e_digito_e_decimal, !Ascii.eqb_eq in H.
    repeat match goal with H : _ /\ _ |- _ => destruct H end; subst.
    repeat match goal with
           | H : e_decimal _ = true |- _ => apply e_decimal_valor in H
           end.
    repeat match goal with H : _ /\ _ |- _ => destruct H end.
    exists [valor x0; valor x1; valor x2; valor x3; valor x4; valor x5;
            valor x6; valor x7; valor x8; valor x9; valor x10].
    split; [split; [reflexivity | lista_de_digitos]|].
    unfold pontuar, texto.
    cbn [firstn skipn map string_of_list_ascii append].
    repeat match goal with H : ?c = digito_char (valor ?c) |- _ =>
             rewrite <- H; clear H end.
    reflexivity.
  - intros (ds & Hds & ->); now apply forma_a_pontuar.
Qed.

(** The format check lets through the strings of the two shapes, and those
    strings followed by one line feed; no other string. *)
Lemma formato_formas (cpf : string) :
  formato_incorreto cpf = false <->
  exists t r,
    cpf = t ++ r /\ no_fim r = true
    /\ (Spec.forma_a t = true \/ Spec.forma_b t = true).
Proof.
  split.
  - intros H; destruct (formato_inv cpf H) as (ds & r & Hds & Hr & [-> | ->] & _).
    + exists (texto ds), r; repeat split; auto.
      right; apply forma_b_onze; eauto.
    + exists (pontuar ds), r; repeat split; auto.
      left; apply forma_a_onze; eauto.
  - intros (t & r & -> & Hr & [H | H]).
    + apply forma_a_onze in H as (ds & Hds & ->); now apply formato_pontuar.
    + apply forma_b_onze in H as (ds & Hds & ->); now apply formato_texto.
Qed.

(** What the validator accepts has one of the two shapes once its spaces
    and at most one final line feed are taken away. *)
Lemma validar_cpf_verdadeiro (s : string) :
  validar_cpf s = Retorna true ->
  exists t,
    (sem_espacos s = t \/ sem_espacos s = t ++ String nova_linha "")
    /\ (Spec.forma_a t = true \/ Spec.forma_b t = true).
Proof.
  intros H; destruct (formato_incorreto (sem_espacos s)) eqn:F.
  - rewrite validar_cpf_incorreto in H by assumption; discriminate.
  - apply formato_formas in F as (t & r & E & Hr & Ht).
    exists t; split; [|assumption].
    apply no_fim_inv in Hr as [-> | ->]; rewrite E;
      [left; apply append_vazio | now right].
Qed.

(** *** The validator and the specification's validation *)

Lemma sem_pontuacao_texto (ds : list Z) :
  onze_digitos ds ->
  replace_char "-" "" (replace_char "." "" (texto ds)) = texto ds.
Proof. intros [_ Hd]; now rewrite !replace_char_texto. Qed.

Lemma sem_pontuacao_pontuar (ds : list Z) :
  onze_digitos ds ->
  replace_char "-" "" (replace_char "." "" (pontuar ds)) = texto ds.
Proof.
  intros Hds.
  destruct (partes_de_onze ds Hds)
    as (a & b & c & d & -> & La & Lb & Lc & Ld & Ha & Hb & Hc & Hd).
  rewrite <- (append_vazio (pontuar _)), pontuar_partes by assumption.
  rewrite !texto_app.
  repeat (rewrite ?replace_char_app, ?replace_char_texto
            by (reflexivity || assumption);
          cbn [replace_char Ascii.eqb Bool.eqb append]).
  now rewrite append_vazio.
Qed.

Lemma validar_cpf_validate (s : string) :
  Spec.forma_a (sem_espacos s) || Spec.forma_b (sem_espacos s) = true ->
  validar_cpf s = Retorna (Spec.validate s).
Proof.
  intros H; unfold Spec.validate; fold (sem_espacos s); rewrite H.
  apply orb_true_iff in H as [H | H].
  - apply forma_a_onze in H as (ds & Hds & E).
    pose proof (formato_pontuar ds "" Hds eq_refl) as Hf.
    pose proof (limpar_pontuar ds "" Hds eq_refl) as Hl.
    rewrite append_vazio in Hf, Hl.
    rewrite E, sem_pontuacao_pontuar, valores_texto by apply Hds.
    rewrite <- conferido_spec by assumption.
    apply validar_cpf_aceito; rewrite ?E; assumption.
  - apply forma_b_onze in H as (ds & Hds & E).
    pose proof (formato_texto ds "" Hds eq_refl) as Hf.
    pose proof (limpar_texto ds "" Hds eq_refl) as Hl.
    rewrite append_vazio in Hf, Hl.
    rewrite E, sem_pontuacao_texto, valores_texto by apply Hds.
    rewrite <- conferido_spec by assumption.
    apply validar_cpf_aceito; rewrite ?E; assumption.
Qed.

Lemma sorteio_um_a_nove : sorteio_valido um_a_nove.
Proof.
  intros i; unfold um_a_nove, digito.
  pose proof (Z.mod_pos_bound (Z.of_nat (S i)) 10); lia.
Qed.

(** Where the adjustment rule holds: in both files and for both digits, a
    sum whose remainder by 11 is 0 or 1 gives the digit 0, each on the sum
    its own loop adds up.  For the first digit of both files and the second
    digit of the validator that sum is the specification's; for the second
    digit of the generator it is [soma_dois_gerador], the sum over the base
    digits and the characters of the first digit before its adjustment. *)
Lemma ajuste_para_zero (base : list Z) (d10 d11 : Z) :
  nove_digitos base -> digito d10 -> digito d11 ->
  exists cg cv,
    Gerador.calcular (texto base) = Retorna cg
    /\ Validador.calcular (texto (base ++ [d10; d11])) = Retorna cv
    /\ soma_um cg = Spec.soma_ponderada base Spec.pesos_1
    /\ soma_um cv = Spec.soma_ponderada base Spec.pesos_1
    /\ soma_dois cv = Spec.soma_ponderada (base ++ [d10]) Spec.pesos_2
    /\ soma_dois cg = soma_dois_gerador base
    /\ (soma_um cg mod 11 = 0 \/ soma_um cg mod 11 = 1 -> digito_um cg = 0)
    /\ (soma_dois cg mod 11 = 0 \/ soma_dois cg mod 11 = 1
        -> digito_dois cg = 0)
    /\ (soma_um cv mod 11 = 0 \/ soma_um cv mod 11 = 1 -> digito_um cv = 0)
    /\ (soma_dois cv mod 11 = 0 \/ soma_dois cv mod 11 = 1
        -> digito_dois cv = 0).
Proof.
  intros Hb H10 H11.
  rewrite gerador_calcular_texto, validador_calcular_texto
    by (assumption
        || (apply Forall_app; split; [apply Hb | lista_de_digitos])).
  do 2 eexists; do 2 (split; [reflexivity|]).
  cbn [soma_um soma_dois digito_um digito_dois].
  rewrite firstn_nove, firstn_dez by assumption.
  rewrite <- pesar_pesos_1 by apply Hb.
  rewrite <- pesar_pesos_2 by (rewrite length_app, (proj1 Hb); reflexivity).
  repeat (split; [reflexivity|]).
  repeat split; apply ajustar_zero.
Qed.

(** ** The claims *)

(** C1.  The round trip, generation and then validation of the generated
    text, fails where every drawn digit is 0: the generator returns
    "000.000.000-08" and the validator returns [False] on it, although the
    generator's docstring promises a valid CPF at every call. *)
Theorem gerar_e_validar_zeros :
  gerar_cpf (fun _ => 0) = Retorna "000.000.000-08"
  /\ validar_cpf "000.000.000-08" = Retorna false
  /\ gerar_e_validar (fun _ => 0) = Retorna false.
Proof. repeat split; reflexivity. Qed.

(** C2.  Where every drawn digit is 0 the generator's second loop does not
    run over the nine base digits and the adjusted first check digit: the
    first digit is still 11 there, its text "11" appends two characters, the
    sum is 3 and the second digit 8, where the ten digits 0000000000 with
    weights 11 down to 2 give the second check digit 0. *)
Theorem gerador_digito_dois_zeros :
  Gerador.calcular "000000000" = Retorna (Calculo 0 3 0 8)
  /\ Spec.check_digit_1 [0; 0; 0; 0; 0; 0; 0; 0; 0] = 0
  /\ Spec.check_digit_2 [0; 0; 0; 0; 0; 0; 0; 0; 0] = 0.
Proof. repeat split; reflexivity. Qed.

(** C3.  For the nine digits of every draw, the first check digit the
    generator computes, and the one the validator computes on those nine
    digits followed by any two digits, is 11 minus the remainder by 11 of the
    sum of the digits weighted 10 down to 2, and 0 when that exceeds 9. *)
Theorem digito_um_conforme (randint : nat -> Z) (d10 d11 : Z) :
  sorteio_valido randint -> digito d10 -> digito d11 ->
  let base := base_sorteada randint in
  let esperado :=
    let d := 11 - Spec.soma_ponderada base [10; 9; 8; 7; 6; 5; 4; 3; 2] mod 11
    in if d >? 9 then 0 else d in
  (exists c, Gerador.calcular (sortear randint) = Retorna c
             /\ digito_um c = esperado)
  /\ (exists c, Validador.calcular (texto (base ++ [d10; d11])) = Retorna c
                /\ digito_um c = esperado).
Proof.
  intros H H10 H11 base esperado.
  pose proof (base_sorteada_nove _ H) as Hb; fold base in Hb.
  assert (esperado = ajustar (11 - pesar base 10 mod 11)) as ->.
  { unfold esperado; rewrite (pesar_pesos_1 base) by apply Hb; reflexivity. }
  split.
  - rewrite sortear_texto, gerador_calcular_texto by assumption.
    eexists; split; reflexivity.
  - rewrite validador_calcular_texto
      by (apply Forall_app; split; [apply Hb | lista_de_digitos]).
    eexists; split; [reflexivity|]; cbn [digito_um].
    now rewrite firstn_nove.
Qed.

Lemma digito_um_conforme_witness :
  let base := base_sorteada um_a_nove in
  base = [1; 2; 3; 4; 5; 6; 7; 8; 9]
  /\ (exists c, Gerador.calcular (sortear um_a_nove) = Retorna c
                /\ digito_um c = 0)
  /\ (exists c, Validador.calcular (texto (base ++ [0; 9])) = Retorna c
                /\ digito_um c = 0).
Proof.
  split; [reflexivity|].
  apply (digito_um_conforme um_a_nove 0 9);
    [apply sorteio_um_a_nove | unfold digito; lia | unfold digito; lia].
Defined.

(** C4.  The validator returns [True] on the eleven digits 12345678909
    followed by a line feed, a string of twelve characters that has neither
    of the two shapes: [$] also holds before a final line feed, and [strip]
    then drops it. *)
Theorem validar_cpf_nova_linha :
  let s := "12345678909" ++ String nova_linha "" in
  validar_cpf s = Retorna true
  /\ sem_espacos s = s
  /\ Spec.forma_a s = false /\ Spec.forma_b s = false.
Proof. repeat split; reflexivity. Qed.

(** C5.  On every string that passes the format check, the cleaned text is
    eleven digits, the check-digit block returns, and the validator returns
    the conjunction of the two comparisons: [True] exactly when the first
    computed digit is the 10th digit and the second computed digit is the
    11th, and [False] otherwise.  The computed digits are the validator's,
    the second one from the first ten digits supplied; the same holds with
    the two check digits recomputed from the nine base digits. *)
Theorem conferencia_dos_digitos (s : string) :
  formato_incorreto (sem_espacos s) = false ->
  let cpf_limpo := limpar (sem_espacos s) in
  let ds := valores cpf_limpo in
  exists c,
    Validador.calcular cpf_limpo = Retorna c
    /\ onze_digitos ds /\ cpf_limpo = texto ds
    /\ digito_um c
       = Spec.digito_de (Spec.soma_ponderada (firstn 9 ds) Spec.pesos_1)
    /\ digito_dois c
       = Spec.digito_de (Spec.soma_ponderada (firstn 10 ds) Spec.pesos_2)
    /\ validar_cpf s
       = Retorna ((nth 9 ds 0 =? digito_um c) && (nth 10 ds 0 =? digito_dois c))
    /\ (validar_cpf s = Retorna true
        <-> digito_um c = nth 9 ds 0 /\ digito_dois c = nth 10 ds 0)
    /\ (validar_cpf s = Retorna false
        <-> ~ (digito_um c = nth 9 ds 0 /\ digito_dois c = nth 10 ds 0))
    /\ (validar_cpf s = Retorna true
        <-> Spec.check_digit_1 (firstn 9 ds) = nth 9 ds 0
            /\ Spec.check_digit_2 (firstn 9 ds) = nth 10 ds 0).
Proof.
  intros H cpf_limpo ds.
  destruct (validar_cpf_formato s H) as (Hds & Hl & Hv).
  fold cpf_limpo in Hds, Hl, Hv; fold ds in Hds, Hl, Hv.
  rewrite Hv, Hl, validador_calcular_texto by apply Hds.
  eexists; split; [reflexivity|]; cbn [digito_um digito_dois].
  assert (List.length (firstn 9 ds) = 9%nat /\ List.length (firstn 10 ds) = 10%nat)
    as [L9 L10] by (rewrite !length_firstn, (proj1 Hds); split; reflexivity).
  rewrite <- pesar_pesos_1, <- pesar_pesos_2, <- !ajustar_spec by assumption.
  fold (conferido ds).
  repeat (split; [first [exact Hds | reflexivity]|]).
  split; [|split]; split.
  - intros [= E]; apply andb_true_iff in E as [E1 E2].
    apply Z.eqb_eq in E1, E2; now split.
  - intros [E1 E2]; unfold conferido.
    now rewrite <- E1, <- E2, !Z.eqb_refl.
  - intros [= E] [E1 E2]; unfold conferido in E.
    now rewrite <- E1, <- E2, !Z.eqb_refl in E.
  - intros E; destruct (conferido ds) eqn:C; [|reflexivity].
    exfalso; apply E; unfold conferido in C.
    apply andb_true_iff in C as [C1 C2].
    apply Z.eqb_eq in C1, C2; now split.
  - rewrite conferido_spec by assumption; unfold Spec.sequencia_valida.
    intros [= E]; apply andb_true_iff in E as [E1 E2].
    apply Z.eqb_eq in E1, E2; now split.
  - rewrite conferido_spec by assumption; unfold Spec.sequencia_valida.
    intros [-> ->]; now rewrite !Z.eqb_refl.
Qed.

Lemma conferencia_dos_digitos_witness :
  formato_incorreto (sem_espacos "  145 3822 0620") = false
  /\ let cpf_limpo := limpar (sem_espacos "  145 3822 0620") in
     let ds := valores cpf_limpo in
     exists c,
       Validador.calcular cpf_limpo = Retorna c
       /\ onze_digitos ds /\ cpf_limpo = texto ds
       /\ digito_um c
          = Spec.digito_de (Spec.soma_ponderada (firstn 9 ds) Spec.pesos_1)
       /\ digito_dois c
          = Spec.digito_de (Spec.soma_ponderada (firstn 10 ds) Spec.pesos_2)
       /\ validar_cpf "  145 3822 0620"
          = Retorna ((nth 9 ds 0 =? digito_um c)
                     && (nth 10 ds 0 =? digito_dois c))
       /\ (validar_cpf "  145 3822 0620" = Retorna true
           <-> digito_um c = nth 9 ds 0 /\ digito_dois c = nth 10 ds 0)
       /\ (validar_cpf "  145 3822 0620" = Retorna false
           <-> ~ (digito_um c = nth 9 ds 0 /\ digito_dois c = nth 10 ds 0))
       /\ (validar_cpf "  145 3822 0620" = Retorna true
           <-> Spec.check_digit_1 (firstn 9 ds) = nth 9 ds 0
               /\ Spec.check_digit_2 (firstn 9 ds) = nth 10 ds 0).
Proof.
  split; [reflexivity | apply conferencia_dos_digitos; reflexivity].
Defined.

(** C6.  Validation does not see spaces: a string validates as the string
    without its spaces does, that string has no space left, and a space put
    anywhere in a string does not change the result. *)
Theorem espacos_indiferentes (s a b : string) :
  validar_cpf s = validar_cpf (sem_espacos s)
  /\ ocorre " " (sem_espacos s) = false
  /\ validar_cpf (a ++ String " " b) = validar_cpf (a ++ b).
Proof.
  repeat split.
  - unfold validar_cpf; now rewrite sem_espacos_idem.
  - apply sem_espacos_limpo.
  - unfold validar_cpf. rewrite !sem_espacos_app. reflexivity.
Qed.

(** C7.  The validator returns a boolean on every string and raises on none.
    Either the format is refused and it returns [False] before any index or
    conversion, or the cleaned text is eleven digits, on which the
    check-digit block, the two indices 9 and 10 and their conversions all
    return. *)
Theorem validar_cpf_total (s : string) :
  (exists b, validar_cpf s = Retorna b)
  /\ (formato_incorreto (sem_espacos s) = true
      /\ validar_cpf s = Retorna false
      \/
      formato_incorreto (sem_espacos s) = false
      /\ let cpf_limpo := limpar (sem_espacos s) in
         onze_digitos (valores cpf_limpo)
         /\ cpf_limpo = texto (valores cpf_limpo)
         /\ String.length cpf_limpo = 11%nat
         /\ forallb e_decimal (list_ascii_of_string cpf_limpo) = true
         /\ (exists c, Validador.calcular cpf_limpo = Retorna c)
         /\ (exists v, (c9 <- indice cpf_limpo 9 ;; int_char c9) = Retorna v)
         /\ (exists v, (c10 <- indice cpf_limpo 10 ;; int_char c10)
                       = Retorna v)).
Proof.
  destruct (formato_incorreto (sem_espacos s)) eqn:H.
  - rewrite (validar_cpf_incorreto s H); split; eauto.
  - destruct (validar_cpf_formato s H) as (Hds & Hl & Hv).
    split; [eauto|]; right; split; [reflexivity|]; cbn zeta.
    set (ds := valores (limpar (sem_espacos s))) in *.
    clearbody ds; rewrite Hl.
    rewrite length_texto, validador_calcular_texto,
      !indice_texto by (apply Hds || (rewrite (proj1 Hds); lia)).
    cbn [liga]; rewrite !int_char_digito by apply digito_nth, Hds.
    repeat split; eauto; try apply Hds.
    apply e_decimal_texto, Hds.
Qed.

(** C8.  The generator does not keep the rule for its second digit.  With
    the base 000000037 the first check digit is 0 and the ten digits
    0000000370 weighted 11 down to 2 sum 33, of remainder 0 by 11, so the
    second check digit is 0; the generator's second loop runs over
    "00000003710", sums 35 and leaves the second digit 9: it returns
    "000.000.037-09". *)
Theorem ajuste_do_segundo_digito_gerador :
  let base := [0; 0; 0; 0; 0; 0; 0; 3; 7] in
  let randint := fun i => nth i base 0 in
  Spec.check_digit_1 base = 0
  /\ Spec.soma_ponderada (base ++ [Spec.check_digit_1 base]) Spec.pesos_2
     mod 11 = 0
  /\ Spec.check_digit_2 base = 0
  /\ sortear randint = "000000037"
  /\ Gerador.calcular (sortear randint) = Retorna (Calculo 23 35 0 9)
  /\ gerar_cpf randint = Retorna "000.000.037-09".
Proof. repeat split; reflexivity. Qed.

(** C9.  For every draw the generator returns a text of 14 characters: the
    nine drawn digits in three groups of three closed by '.', '.' and '-',
    and then the two check digits, each of them between 0 and 9 and written
    as one character. *)
Theorem gerar_cpf_formato (randint : nat -> Z) :
  sorteio_valido randint ->
  exists c cpf_formatado,
    Gerador.calcular (sortear randint) = Retorna c
    /\ gerar_cpf randint = Retorna cpf_formatado
    /\ digito (digito_um c) /\ digito (digito_dois c)
    /\ str_int (digito_um c) = String (digito_char (digito_um c)) ""
    /\ str_int (digito_dois c) = String (digito_char (digito_dois c)) ""
    /\ cpf_formatado
       = texto [randint 0%nat; randint 1%nat; randint 2%nat] ++ "."
         ++ texto [randint 3%nat; randint 4%nat; randint 5%nat] ++ "."
         ++ texto [randint 6%nat; randint 7%nat; randint 8%nat] ++ "-"
         ++ str_int (digito_um c) ++ str_int (digito_dois c)
    /\ String.length cpf_formatado = 14%nat
    /\ Spec.forma_a cpf_formatado = true.
Proof.
  intros H; pose proof (base_sorteada_nove _ H) as Hb.
  pose proof (gerados_onze _ Hb) as Hg.
  rewrite gerar_cpf_texto, sortear_texto, gerador_calcular_texto by assumption.
  do 2 eexists; do 2 (split; [reflexivity|]).
  cbn [digito_um digito_dois].
  rewrite !str_int_digito by apply ajustar_digito.
  do 2 (split; [apply ajustar_digito|]).
  do 3 (split; [reflexivity|]).
  split; [now apply length_pontuar | now apply forma_a_pontuar].
Qed.

Lemma gerar_cpf_formato_witness :
  sorteio_valido um_a_nove
  /\ exists c cpf_formatado,
      Gerador.calcular (sortear um_a_nove) = Retorna c
      /\ gerar_cpf um_a_nove = Retorna cpf_formatado
      /\ digito (digito_um c) /\ digito (digito_dois c)
      /\ str_int (digito_um c) = String (digito_char (digito_um c)) ""
      /\ str_int (digito_dois c) = String (digito_char (digito_dois c)) ""
      /\ cpf_formatado
         = texto [um_a_nove 0%nat; um_a_nove 1%nat; um_a_nove 2%nat] ++ "."
           ++ texto [um_a_nove 3%nat; um_a_nove 4%nat; um_a_nove 5%nat] ++ "."
           ++ texto [um_a_nove 6%nat; um_a_nove 7%nat; um_a_nove 8%nat] ++ "-"
           ++ str_int (digito_um c) ++ str_int (digito_dois c)
      /\ String.length cpf_formatado = 14%nat
      /\ Spec.forma_a cpf_formatado = true.
Proof.
  split; [apply sorteio_um_a_nove|].
  apply gerar_cpf_formato, sorteio_um_a_nove.
Defined.

(** C10.  On every string that passes the format check the validator, which
    takes its second check digit from the first ten digits supplied, returns
    what the specification's definition returns on the raw digits, which
    takes it from the nine base digits and the recomputed first check digit;
    and on every string that has one of the two shapes once its spaces are
    gone, the validator returns what the specification's validation
    returns. *)
Theorem validador_conforme (s : string) :
  formato_incorreto (sem_espacos s) = false ->
  validar_cpf s
  = Retorna (Spec.sequencia_valida (valores (limpar (sem_espacos s))))
  /\ (Spec.forma_a (sem_espacos s) || Spec.forma_b (sem_espacos s) = true
      -> validar_cpf s = Retorna (Spec.validate s)).
Proof.
  intros H; destruct (validar_cpf_formato s H) as (Hds & _ & ->).
  split; [now rewrite conferido_spec|].
  intros F; rewrite <- validar_cpf_validate by assumption.
  destruct (validar_cpf_formato s H) as (_ & _ & ->); reflexivity.
Qed.

Lemma validador_conforme_witness :
  formato_incorreto (sem_espacos "123.456.789-09") = false
  /\ validar_cpf "123.456.789-09"
     = Retorna (Spec.sequencia_valida
                  (valores (limpar (sem_espacos "123.456.789-09"))))
  /\ (Spec.forma_a (sem_espacos "123.456.789-09")
      || Spec.forma_b (sem_espacos "123.456.789-09") = true
      -> validar_cpf "123.456.789-09"
         = Retorna (Spec.validate "123.456.789-09")).
Proof.
  split; [reflexivity | apply validador_conforme; reflexivity].
Defined.

(** ** Further properties of the two functions *)

(** *** Auxiliary lemmas *)

Lemma onze_de_nove (base : list Z) (a b : Z) :
  nove_digitos base -> digito a -> digito b -> onze_digitos (base ++ [a; b]).
Proof.
  intros [Hl Hd] Ha Hb; split.
  - rewrite length_app, Hl; reflexivity.
  - apply Forall_app; split; [assumption | lista_de_digitos].
Qed.

Lemma nove_de_onze (ds : list Z) :
  onze_digitos ds ->
  nove_digitos (firstn 9 ds)
  /\ ds = (firstn 9 ds ++ [nth 9 ds 0; nth 10 ds 0])%list.
Proof.
  intros [Hl Hd]; split; [split|].
  - rewrite length_firstn, Hl; reflexivity.
  - now apply digito_firstn.
  - abrir_lista ds; reflexivity.
Qed.

Lemma pesar_meio (pre pos : list Z) (d k : Z) :
  pesar (pre ++ d :: pos) k
  = pesar pre k + pesar pos (k - Z.of_nat (List.length pre) - 1)
    + d * (k - Z.of_nat (List.length pre)).
Proof. rewrite pesar_app; cbn [pesar]; ring. Qed.

(** The comparison on nine base digits followed by two digits. *)
Lemma conferido_base (base : list Z) (a b : Z) :
  nove_digitos base ->
  conferido (base ++ [a; b])
  = (a =? ajustar (11 - pesar base 10 mod 11))
    && (b =? ajustar (11 - (pesar base 11 + a * 2) mod 11)).
Proof.
  intros Hb; unfold conferido.
  rewrite firstn_nove, firstn_dez, pesar_app, (proj1 Hb) by assumption.
  replace (nth 9 (base ++ [a; b]) 0) with a
    by (destruct Hb as [Hl _]; abrir_lista base; reflexivity).
  replace (nth 10 (base ++ [a; b]) 0) with b
    by (destruct Hb as [Hl _]; abrir_lista base; reflexivity).
  cbn [pesar].
  replace (a * (11 - Z.of_nat 9) + 0) with (a * 2) by lia; reflexivity.
Qed.

Lemma conferido_base_spec (base : list Z) (a b : Z) :
  nove_digitos base -> digito a -> digito b ->
  conferido (base ++ [a; b])
  = (Spec.check_digit_1 base =? a) && (Spec.check_digit_2 base =? b).
Proof.
  intros Hb Ha Hc; rewrite conferido_spec by now apply onze_de_nove.
  unfold Spec.sequencia_valida; rewrite firstn_nove by assumption.
  replace (nth 9 (base ++ [a; b]) 0) with a
    by (destruct Hb as [Hl _]; abrir_lista base; reflexivity).
  replace (nth 10 (base ++ [a; b]) 0) with b
    by (destruct Hb as [Hl _]; abrir_lista base; reflexivity).
  reflexivity.
Qed.

Lemma digito_algarismo (d : Z) : digito d -> In d algarismos.
Proof. intros H; por_digito H; simpl; tauto. Qed.

Lemma resto_em_restos (a : Z) : In (a mod 11) restos.
Proof.
  pose proof (Z.mod_pos_bound a 11 ltac:(lia)) as H.
  remember (a mod 11) as r eqn:E; clear E.
  assert (r = 0 \/ r = 1 \/ r = 2 \/ r = 3 \/ r = 4 \/ r = 5 \/ r = 6
          \/ r = 7 \/ r = 8 \/ r = 9 \/ r = 10) as C by lia.
  repeat (destruct C as [C | C]); subst r; simpl; tauto.
Qed.

Lemma coincide_resto (w a d e : Z) :
  coincide w (a mod 11) d e = coincide w a d e.
Proof. unfold coincide; now rewrite !Z.add_mod_idemp_l by lia. Qed.

Lemma tabela_de_trocas :
  forallb (fun w =>
    forallb (fun d =>
      forallb (fun e => troca_detectada w d e) algarismos) algarismos)
    pesos_seguros = true.
Proof. vm_compute; reflexivity. Qed.

Lemma nunca_coincide_soma (w a d e : Z) :
  nunca_coincide w d e = true ->
  ajustar (11 - (a + d * w) mod 11) <> ajustar (11 - (a + e * w) mod 11).
Proof.
  unfold nunca_coincide; intros H E.
  rewrite forallb_forall in H.
  specialize (H _ (resto_em_restos a)).
  rewrite coincide_resto in H; unfold coincide in H.
  now rewrite E, Z.eqb_refl in H.
Qed.

Lemma troca_vista (w a b d e : Z) :
  In w pesos_seguros -> digito d -> digito e -> d <> e ->
  ajustar (11 - (a + d * w) mod 11) = ajustar (11 - (a + e * w) mod 11) ->
  ajustar (11 - (b + d * (w + 1)) mod 11)
  = ajustar (11 - (b + e * (w + 1)) mod 11) ->
  False.
Proof.
  intros Hw Hd He Hne E1 E2.
  pose proof tabela_de_trocas as T.
  rewrite forallb_forall in T; specialize (T _ Hw).
  rewrite forallb_forall in T; specialize (T _ (digito_algarismo d Hd)).
  rewrite forallb_forall in T; specialize (T _ (digito_algarismo e He)).
  unfold troca_detectada in T.
  apply orb_true_iff in T as [T | T]; [apply orb_true_iff in T as [T | T]|].
  - apply Z.eqb_eq in T; contradiction.
  - exact (nunca_coincide_soma _ _ _ _ T E1).
  - exact (nunca_coincide_soma _ _ _ _ T E2).
Qed.

Lemma sem_ajuste_resto (soma : Z) :
  negb (11 - soma mod 11 >? 9) = (2 <=? soma mod 11).
Proof.
  destruct (Z.gtb_spec (11 - soma mod 11) 9), (Z.leb_spec 2 (soma mod 11));
    simpl; lia || reflexivity.
Qed.

(** *** The generator *)

(** X1.  For every draw the generator returns a text that passes the
    validator's format check, and the validator returns [True] on it exactly
    when the sum of the drawn digits weighted 10 down to 2 leaves a remainder
    of at least 2 by 11; on the other draws it returns [False]. *)
Theorem ida_e_volta (randint : nat -> Z) :
  sorteio_valido randint ->
  let soma := Spec.soma_ponderada (base_sorteada randint) Spec.pesos_1 in
  exists cpf,
    gerar_cpf randint = Retorna cpf
    /\ formato_incorreto (sem_espacos cpf) = false
    /\ validar_cpf cpf = Retorna (2 <=? soma mod 11)
    /\ gerar_e_validar randint = Retorna (2 <=? soma mod 11).
Proof.
  intros H soma; pose proof (base_sorteada_nove _ H) as Hb.
  pose proof (gerados_onze _ Hb) as Hg.
  assert (soma = pesar (base_sorteada randint) 10) as ->
    by (unfold soma; now rewrite pesar_pesos_1 by apply Hb).
  rewrite gerar_e_validar_resultado, gerar_cpf_texto by assumption.
  eexists; split; [reflexivity|].
  rewrite sem_espacos_pontuar, validar_cpf_pontuar, conferido_gerados,
    sem_ajuste_resto by assumption.
  repeat split.
  rewrite <- (append_vazio (pontuar _)); now apply formato_pontuar.
Qed.

Lemma ida_e_volta_witness :
  sorteio_valido um_a_nove
  /\ exists cpf,
      gerar_cpf um_a_nove = Retorna cpf
      /\ formato_incorreto (sem_espacos cpf) = false
      /\ validar_cpf cpf = Retorna false
      /\ gerar_e_validar um_a_nove = Retorna false.
Proof.
  split; [apply sorteio_um_a_nove|].
  exact (ida_e_volta um_a_nove sorteio_um_a_nove).
Defined.

(** X2.  For every draw the check-digit block of the generator returns; its
    first digit is the first check digit of the drawn base, and its second
    digit is the second check digit of the base exactly when the weighted sum
    of the base leaves a remainder of at least 2 by 11, that is when the
    first digit needed no adjustment. *)
Theorem gerador_segundo_digito (randint : nat -> Z) :
  sorteio_valido randint ->
  let base := base_sorteada randint in
  exists c,
    Gerador.calcular (sortear randint) = Retorna c
    /\ digito_um c = Spec.check_digit_1 base
    /\ (digito_dois c = Spec.check_digit_2 base
        <-> 2 <= Spec.soma_ponderada base Spec.pesos_1 mod 11).
Proof.
  intros H base; pose proof (base_sorteada_nove _ H) as Hb; fold base in Hb.
  rewrite sortear_texto, gerador_calcular_texto by assumption; fold base.
  eexists; split; [reflexivity|]; cbn [digito_um digito_dois].
  pose proof (gerador_digito_dois_spec base Hb) as E.
  rewrite sem_ajuste_resto in E.
  unfold Spec.check_digit_1; rewrite <- pesar_pesos_1 by apply Hb.
  split; [reflexivity|].
  rewrite <- Z.leb_le, <- E, Z.eqb_eq; reflexivity.
Qed.

Lemma gerador_segundo_digito_witness :
  sorteio_valido um_a_nove
  /\ let base := base_sorteada um_a_nove in
     exists c,
       Gerador.calcular (sortear um_a_nove) = Retorna c
       /\ digito_um c = Spec.check_digit_1 base
       /\ (digito_dois c = Spec.check_digit_2 base
           <-> 2 <= Spec.soma_ponderada base Spec.pesos_1 mod 11).
Proof.
  split; [apply sorteio_um_a_nove|].
  exact (gerador_segundo_digito um_a_nove sorteio_um_a_nove).
Defined.

(** *** The validator *)

(** X3.  Among the strings whose characters all have code points below 256,
    the format check of line 48 lets a string through exactly when it is a
    string of one of the two shapes, DDD.DDD.DDD-DD or eleven digits, with
    the digits 0 to 9, or such a string followed by one line feed. *)
Theorem formato_aceito (cpf : string) :
  formato_incorreto cpf = false <->
  exists t,
    (cpf = t \/ cpf = t ++ String nova_linha "")
    /\ (Spec.forma_a t = true \/ Spec.forma_b t = true).
Proof.
  rewrite formato_formas; split.
  - intros (t & r & -> & Hr & Ht); exists t; split; [|assumption].
    apply no_fim_inv in Hr as [-> | ->];
      [left; apply append_vazio | now right].
  - intros (t & [-> | ->] & Ht).
    + exists t, ""; now rewrite append_vazio.
    + exists t, (String nova_linha ""); auto.
Qed.

(** X4.  Among the strings whose characters all have code points below 256,
    the validator returns [True] exactly on those that, once their spaces
    are removed, are the eleven digits 0 to 9 of a valid sequence, plain or
    punctuated, followed by nothing or by one line feed. *)
Theorem validar_cpf_aceita (s : string) :
  validar_cpf s = Retorna true <->
  exists ds r,
    onze_digitos ds /\ Spec.sequencia_valida ds = true
    /\ (r = "" \/ r = String nova_linha "")
    /\ (sem_espacos s = texto ds ++ r \/ sem_espacos s = pontuar ds ++ r).
Proof.
  split.
  - intros H; destruct (formato_incorreto (sem_espacos s)) eqn:F.
    + rewrite validar_cpf_incorreto in H by assumption; discriminate.
    + destruct (formato_inv _ F) as (ds & r & Hds & Hr & E & Hl).
      rewrite (validar_cpf_aceito s ds F Hds Hl), conferido_spec in H
        by assumption.
      exists ds, r; repeat split; try apply Hds; auto using no_fim_inv.
      now injection H.
  - intros (ds & r & Hds & Hv & Hr & E).
    assert (no_fim r = true) as Hn by (destruct Hr; subst; reflexivity).
    rewrite <- Hv, <- conferido_spec by assumption.
    apply validar_cpf_aceito; try assumption; destruct E as [-> | ->];
      auto using formato_texto, formato_pontuar, limpar_texto, limpar_pontuar.
Qed.

(** X5.  Eleven digits validate alike written plain and written with the
    punctuation, and the result is the validity of the digit sequence. *)
Theorem pontuacao_indiferente (ds : list Z) :
  onze_digitos ds ->
  validar_cpf (pontuar ds) = validar_cpf (texto ds)
  /\ validar_cpf (texto ds) = Retorna (Spec.sequencia_valida ds).
Proof.
  intros H.
  rewrite validar_cpf_pontuar, validar_cpf_texto, conferido_spec by assumption.
  split; reflexivity.
Qed.

Lemma pontuacao_indiferente_witness :
  onze_digitos [1; 2; 3; 4; 5; 6; 7; 8; 9; 0; 9]
  /\ validar_cpf "123.456.789-09" = validar_cpf "12345678909"
  /\ validar_cpf "12345678909" = Retorna true.
Proof.
  assert (onze_digitos [1; 2; 3; 4; 5; 6; 7; 8; 9; 0; 9]) as H.
  { split; [reflexivity|].
    repeat (apply Forall_cons; [unfold digito; lia|]); apply Forall_nil. }
  split; [exact H|].
  exact (pontuacao_indiferente [1; 2; 3; 4; 5; 6; 7; 8; 9; 0; 9] H).
Defined.

(** X6.  Of the hundred ways to end nine base digits with two digits, the
    validator accepts exactly one: the two check digits of the base. *)
Theorem um_unico_par (base : list Z) (a b : Z) :
  nove_digitos base -> digito a -> digito b ->
  (validar_cpf (texto (base ++ [a; b])) = Retorna true
   <-> a = Spec.check_digit_1 base /\ b = Spec.check_digit_2 base)
  /\ (validar_cpf (texto (base ++ [a; b])) = Retorna false
      <-> ~ (a = Spec.check_digit_1 base /\ b = Spec.check_digit_2 base)).
Proof.
  intros Hb Ha Hc.
  rewrite validar_cpf_texto, conferido_base_spec
    by (assumption || now apply onze_de_nove).
  rewrite (Z.eqb_sym (Spec.check_digit_1 base) a),
    (Z.eqb_sym (Spec.check_digit_2 base) b).
  destruct (Z.eqb_spec a (Spec.check_digit_1 base)) as [E1 | E1];
    destruct (Z.eqb_spec b (Spec.check_digit_2 base)) as [E2 | E2];
    cbn [andb]; intuition congruence.
Qed.

Lemma um_unico_par_witness :
  nove_digitos [1; 2; 3; 4; 5; 6; 7; 8; 9] /\ digito 0 /\ digito 9
  /\ (validar_cpf "12345678909" = Retorna true
      <-> 0 = Spec.check_digit_1 [1; 2; 3; 4; 5; 6; 7; 8; 9]
          /\ 9 = Spec.check_digit_2 [1; 2; 3; 4; 5; 6; 7; 8; 9])
  /\ (validar_cpf "12345678909" = Retorna false
      <-> ~ (0 = Spec.check_digit_1 [1; 2; 3; 4; 5; 6; 7; 8; 9]
             /\ 9 = Spec.check_digit_2 [1; 2; 3; 4; 5; 6; 7; 8; 9])).
Proof.
  assert (nove_digitos [1; 2; 3; 4; 5; 6; 7; 8; 9]) as H.
  { split; [reflexivity|].
    repeat (apply Forall_cons; [unfold digito; lia|]); apply Forall_nil. }
  assert (digito 0 /\ digito 9) as [H0 H9] by (unfold digito; lia).
  split; [exact H|]; split; [exact H0|]; split; [exact H9|].
  exact (um_unico_par [1; 2; 3; 4; 5; 6; 7; 8; 9] 0 9 H H0 H9).
Defined.

(** X7.  The validator accepts the eleven-fold repetition of every digit,
    plain and punctuated: 000.000.000-00, 111.111.111-11 and so on are all
    returned [True]. *)
Theorem digitos_repetidos_aceitos (d : Z) :
  digito d ->
  validar_cpf (texto (repeat d 11)) = Retorna true
  /\ validar_cpf (pontuar (repeat d 11)) = Retorna true.
Proof. intros H; por_digito H; split; vm_compute; reflexivity. Qed.

Lemma digitos_repetidos_aceitos_witness :
  digito 7
  /\ validar_cpf "77777777777" = Retorna true
  /\ validar_cpf "777.777.777-77" = Retorna true.
Proof.
  assert (digito 7) as H by (unfold digito; lia).
  split; [exact H | exact (digitos_repetidos_aceitos 7 H)].
Defined.

Lemma Retorna_inj (A : Type) (x y : A) : Retorna x = Retorna y -> x = y.
Proof. congruence. Qed.

Lemma nove_digitos_troca (pre pos : list Z) (d e : Z) :
  nove_digitos (pre ++ d :: pos) -> digito e ->
  nove_digitos (pre ++ e :: pos) /\ digito d
  /\ (Z.of_nat (List.length pre) <= 8).
Proof.
  intros [Hl Hd] He.
  apply Forall_app in Hd as [H1 H2]; inversion_clear H2.
  rewrite length_app in Hl; cbn [List.length] in Hl.
  split; [split|split; [assumption | lia]].
  - rewrite length_app; cbn [List.length]; lia.
  - apply Forall_app; split; [assumption | now constructor].
Qed.

(** X8.  In a text of eleven digits that the validator accepts, changing one
    base digit other than the first and the sixth into another digit gives a
    text that the validator refuses: such an error never goes unseen. *)
Theorem erro_de_um_digito_recusado (pre pos : list Z) (d e a b : Z) :
  nove_digitos (pre ++ d :: pos) -> digito a -> digito b ->
  digito e -> e <> d ->
  List.length pre <> 0%nat -> List.length pre <> 5%nat ->
  validar_cpf (texto ((pre ++ d :: pos) ++ [a; b])) = Retorna true ->
  validar_cpf (texto ((pre ++ e :: pos) ++ [a; b])) = Retorna false.
Proof.
  intros Hb Ha Hc He Hne Hn0 Hn5 Hv.
  destruct (nove_digitos_troca pre pos d e Hb He) as (Hb' & Hd & Hn).
  rewrite validar_cpf_texto, conferido_base in *
    by (assumption || now apply onze_de_nove).
  apply Retorna_inj in Hv; apply andb_true_iff in Hv as [V1 V2].
  apply Z.eqb_eq in V1, V2.
  f_equal; apply not_true_is_false; intros F.
  apply andb_true_iff in F as [F1 F2]; apply Z.eqb_eq in F1, F2.
  rewrite pesar_meio in V1, V2, F1, F2.
  set (n := Z.of_nat (List.length pre)) in *.
  apply (troca_vista (10 - n) (pesar pre 10 + pesar pos (10 - n - 1))
           (pesar pre 11 + pesar pos (11 - n - 1) + a * 2) d e);
    try assumption; try congruence.
  - assert (n <> 0 /\ n <> 5) as [N0 N5] by (unfold n; lia).
    assert (10 - n = 2 \/ 10 - n = 3 \/ 10 - n = 4 \/ 10 - n = 6
            \/ 10 - n = 7 \/ 10 - n = 8 \/ 10 - n = 9) as C by lia.
    repeat (destruct C as [C | C]); rewrite C; simpl; tauto.
  - replace (pesar pre 11 + pesar pos (11 - n - 1) + a * 2 + d * (10 - n + 1))
      with (pesar pre 11 + pesar pos (11 - n - 1) + d * (11 - n) + a * 2)
      by ring.
    replace (pesar pre 11 + pesar pos (11 - n - 1) + a * 2 + e * (10 - n + 1))
      with (pesar pre 11 + pesar pos (11 - n - 1) + e * (11 - n) + a * 2)
      by ring.
    congruence.
Qed.

Lemma erro_de_um_digito_recusado_witness :
  nove_digitos ([1] ++ 2 :: [3; 4; 5; 6; 7; 8; 9]) /\ digito 0 /\ digito 9
  /\ digito 7 /\ 7 <> 2
  /\ validar_cpf "12345678909" = Retorna true
  /\ validar_cpf "17345678909" = Retorna false.
Proof.
  assert (nove_digitos ([1] ++ 2 :: [3; 4; 5; 6; 7; 8; 9])) as H.
  { split; [reflexivity|].
    repeat (apply Forall_cons; [unfold digito; lia|]); apply Forall_nil. }
  assert (digito 0 /\ digito 9 /\ digito 7) as (H0 & H9 & H7)
    by (unfold digito; lia).
  assert (7 <> 2) as Hne by lia.
  repeat (split; [assumption|]).
  split; [reflexivity|].
  apply (erro_de_um_digito_recusado [1] [3; 4; 5; 6; 7; 8; 9] 2 7 0 9
           H H0 H9 H7 Hne);
    [discriminate | discriminate | reflexivity].
Defined.

(** X9.  An error in the first digit can go unseen: in an accepted text whose
    base has a weighted sum of remainder 1 by 11 and a first digit below 9,
    the first digit raised by one gives a text that is accepted too. *)
Theorem erro_no_primeiro_digito_aceito (d : Z) (pos : list Z) (a b : Z) :
  nove_digitos (d :: pos) -> digito a -> digito b -> d <= 8 ->
  Spec.soma_ponderada (d :: pos) Spec.pesos_1 mod 11 = 1 ->
  validar_cpf (texto ((d :: pos) ++ [a; b])) = Retorna true ->
  validar_cpf (texto ((d + 1 :: pos) ++ [a; b])) = Retorna true.
Proof.
  intros Hb Ha Hc H8 Hs Hv.
  assert (digito (d + 1)) as He
    by (destruct Hb as [_ Hd]; inversion_clear Hd; unfold digito in *; lia).
  destruct (nove_digitos_troca [] pos d (d + 1) Hb He) as (Hb' & _ & _).
  cbn [app] in Hb'.
  rewrite <- pesar_pesos_1 in Hs by apply Hb.
  rewrite validar_cpf_texto, conferido_base in *
    by (assumption || now apply onze_de_nove).
  rewrite <- Hv; cbn [pesar].
  replace ((d + 1) * 10 + pesar pos (10 - 1))
    with (d * 10 + pesar pos (10 - 1) + 10) by ring.
  replace ((d + 1) * 11 + pesar pos (11 - 1) + a * 2)
    with (d * 11 + pesar pos (11 - 1) + a * 2 + 1 * 11) by ring.
  rewrite Z_mod_plus_full.
  cbn [pesar] in Hs.
  rewrite <- (Z.add_mod_idemp_l (d * 10 + pesar pos (10 - 1)) 10), Hs by lia.
  reflexivity.
Qed.

Lemma erro_no_primeiro_digito_aceito_witness :
  nove_digitos (1 :: [2; 3; 4; 5; 6; 7; 8; 9]) /\ digito 0 /\ digito 9
  /\ 1 <= 8
  /\ Spec.soma_ponderada (1 :: [2; 3; 4; 5; 6; 7; 8; 9]) Spec.pesos_1 mod 11
     = 1
  /\ validar_cpf "12345678909" = Retorna true
  /\ validar_cpf "22345678909" = Retorna true.
Proof.
  assert (nove_digitos (1 :: [2; 3; 4; 5; 6; 7; 8; 9])) as H.
  { split; [reflexivity|].
    repeat (apply Forall_cons; [unfold digito; lia|]); apply Forall_nil. }
  assert (digito 0 /\ digito 9) as (H0 & H9) by (unfold digito; lia).
  assert (1 <= 8) as H8 by lia.
  repeat (split; [assumption|]).
  split; [reflexivity|]; split; [reflexivity|].
  apply (erro_no_primeiro_digito_aceito 1 [2; 3; 4; 5; 6; 7; 8; 9] 0 9
           H H0 H9 H8);
    reflexivity.
Defined.

(** *** Characters and lengths of an accepted string *)

Lemma ocorre_app (c : ascii) (a b : string) :
  ocorre c (a ++ b) = ocorre c a || ocorre c b.
Proof.
  induction a as [|x a IH]; [reflexivity|].
  simpl; now rewrite IH, orb_assoc.
Qed.

Lemma ocorre_texto (c : ascii) (ds : list Z) :
  Forall digito ds -> ocorre c (texto ds) = true -> e_decimal c = true.
Proof.
  intros H; induction H as [|d ds Hd _ IH]; [discriminate|].
  rewrite texto_cons; cbn [ocorre]; intros E.
  apply orb_true_iff in E as [E | E]; [|auto].
  apply Ascii.eqb_eq in E; subst c; now apply e_decimal_digito.
Qed.

Lemma ocorre_sem_espacos (c : ascii) (s : string) :
  c <> " "%char -> ocorre c s = true -> ocorre c (sem_espacos s) = true.
Proof.
  intros Hc; unfold sem_espacos.
  induction s as [|x s IH]; [discriminate|].
  cbn [ocorre replace_char]; intros E.
  destruct (Ascii.eqb x " ") eqn:X.
  - apply Ascii.eqb_eq in X; subst x.
    apply orb_true_iff in E as [E | E]; [|auto].
    apply Ascii.eqb_eq in E; congruence.
  - cbn [ocorre]; apply orb_true_iff in E as [E | E].
    + now rewrite E.
    + rewrite (IH E); apply orb_true_r.
Qed.

Lemma ocorre_no_fim (c : ascii) (r : string) :
  no_fim r = true -> ocorre c r = true -> c = nova_linha.
Proof.
  intros H; apply no_fim_inv in H as [-> | ->]; [discriminate|].
  cbn [ocorre]; rewrite orb_false_r, Ascii.eqb_eq; auto.
Qed.

Lemma ocorre_aceito (c : ascii) (cpf : string) :
  formato_incorreto cpf = false -> ocorre c cpf = true ->
  e_decimal c = true \/ c = "."%char \/ c = "-"%char \/ c = nova_linha.
Proof.
  intros F H; destruct (formato_inv _ F) as (ds & r & Hds & Hr & [-> | ->] & _).
  - rewrite ocorre_app in H; apply orb_true_iff in H as [H | H].
    + left; exact (ocorre_texto _ _ (proj2 Hds) H).
    + do 3 right; exact (ocorre_no_fim _ _ Hr H).
  - destruct (partes_de_onze ds Hds)
      as (a & b & x & d & -> & La & Lb & Lc & Ld & Ha & Hb & Hc & Hd).
    rewrite pontuar_partes in H by assumption.
    repeat (rewrite ocorre_app in H || cbn [ocorre] in H).
    repeat rewrite orb_true_iff in H.
    rewrite !Ascii.eqb_eq in H.
    intuition (eauto using ocorre_texto, ocorre_no_fim).
Qed.

Lemma length_append (a b : string) :
  String.length (a ++ b) = (String.length a + String.length b)%nat.
Proof. induction a as [|x a IH]; simpl; [|rewrite IH]; reflexivity. Qed.

Lemma comprimento_aceito (cpf : string) :
  formato_incorreto cpf = false ->
  let n := String.length cpf in
  n = 11%nat \/ n = 12%nat \/ n = 14%nat \/ n = 15%nat.
Proof.
  intros F; destruct (formato_inv _ F) as (ds & r & Hds & Hr & E & _).
  cbn zeta; apply no_fim_inv in Hr.
  destruct E as [-> | ->]; rewrite length_append, ?length_texto,
    ?length_pontuar, ?(proj1 Hds) by assumption;
    destruct Hr as [-> | ->]; simpl; tauto.
Qed.

(** X10.  A string whose characters all have code points below 256 and that
    holds any character other than a digit 0 to 9, '.', '-', a space or a
    line feed is refused: the validator returns [False] without raising. *)
Theorem caractere_estranho_recusado (s : string) (c : ascii) :
  ocorre c s = true ->
  e_decimal c = false -> c <> "."%char -> c <> "-"%char -> c <> " "%char ->
  c <> nova_linha ->
  validar_cpf s = Retorna false.
Proof.
  intros H Hd Hp Hh He Hn.
  destruct (formato_incorreto (sem_espacos s)) eqn:F;
    [now apply validar_cpf_incorreto|].
  apply ocorre_sem_espacos in H; [|assumption].
  destruct (ocorre_aceito c _ F H) as [E | [E | [E | E]]]; congruence.
Qed.

Lemma caractere_estranho_recusado_witness :
  ocorre "x" "123.456.789-0x" = true
  /\ e_decimal "x" = false
  /\ validar_cpf "123.456.789-0x" = Retorna false.
Proof.
  split; [reflexivity|]; split; [reflexivity|].
  apply (caractere_estranho_recusado "123.456.789-0x" "x");
    (reflexivity || discriminate).
Defined.

(** X11.  A string that is not 11, 12, 14 or 15 characters long once its
    spaces are removed is refused; so are the empty string and every string
    of spaces only. *)
Theorem comprimento_recusado (s : string) :
  let n := String.length (sem_espacos s) in
  n <> 11%nat -> n <> 12%nat -> n <> 14%nat -> n <> 15%nat ->
  validar_cpf s = Retorna false.
Proof.
  intros n H11 H12 H14 H15.
  destruct (formato_incorreto (sem_espacos s)) eqn:F;
    [now apply validar_cpf_incorreto|].
  pose proof (comprimento_aceito _ F) as C; cbn zeta in C; fold n in C.
  tauto.
Qed.

Lemma comprimento_recusado_witness :
  String.length (sem_espacos "   ") = 0%nat
  /\ validar_cpf "   " = Retorna false.
Proof.
  split; [reflexivity|].
  apply (comprimento_recusado "   "); discriminate.
Defined.

(** X12.  After a string of one of the two shapes a final line feed changes
    nothing and a second one makes the validator refuse; a string that begins
    with a line feed is always refused. *)
Theorem nova_linha_no_fim_e_no_inicio (t s : string) :
  Spec.forma_a t = true \/ Spec.forma_b t = true ->
  validar_cpf (t ++ String nova_linha "") = validar_cpf t
  /\ validar_cpf (t ++ String nova_linha (String nova_linha ""))
     = Retorna false
  /\ validar_cpf (String nova_linha s) = Retorna false.
Proof.
  intros H.
  assert (exists ds, onze_digitos ds
                     /\ (t = texto ds \/ t = pontuar ds)) as (ds & Hds & E).
  { destruct H as [H | H];
      [apply forma_a_onze in H | apply forma_b_onze in H];
      destruct H as (ds & Hds & ->); eauto. }
  assert (sem_espacos t = t) as St
    by (destruct E as [-> | ->];
        [apply sem_espacos_texto, Hds | now apply sem_espacos_pontuar]).
  assert (String.length t = 11%nat \/ String.length t = 14%nat) as Lt
    by (destruct E as [-> | ->];
        [left; rewrite length_texto; apply Hds
        | right; now apply length_pontuar]).
  split; [|split].
  - transitivity (Retorna (conferido ds)).
    + apply validar_cpf_aceito; try assumption;
        rewrite sem_espacos_app, St; cbn [sem_espacos replace_char];
        destruct E as [-> | ->];
        auto using formato_texto, formato_pontuar, limpar_texto,
          limpar_pontuar.
    + symmetry; destruct E as [-> | ->];
        auto using validar_cpf_texto, validar_cpf_pontuar.
  - apply comprimento_recusado; cbn zeta;
      rewrite sem_espacos_app, St, length_append; simpl; lia.
  - reflexivity.
Qed.

Lemma nova_linha_no_fim_e_no_inicio_witness :
  (Spec.forma_a "12345678909" = true \/ Spec.forma_b "12345678909" = true)
  /\ validar_cpf ("12345678909" ++ String nova_linha "")
     = validar_cpf "12345678909"
  /\ validar_cpf ("12345678909" ++ String nova_linha (String nova_linha ""))
     = Retorna false
  /\ validar_cpf (String nova_linha "12345678909") = Retorna false.
Proof.
  assert (Spec.forma_a "12345678909" = true
          \/ Spec.forma_b "12345678909" = true) as H
    by (right; reflexivity).
  split; [exact H|].
  exact (nova_linha_no_fim_e_no_inicio "12345678909" "12345678909" H).
Defined.

(** X13.  An error in the sixth digit can go unseen too: in an accepted text
    whose first weighted sum has remainder 1 and whose second has remainder 0
    by 11, the sixth digit raised by two, when it was at most 7, gives a text
    that is accepted. *)
Theorem erro_no_sexto_digito_aceito (pre pos : list Z) (d a b : Z) :
  nove_digitos (pre ++ d :: pos) -> digito a -> digito b ->
  List.length pre = 5%nat -> d <= 7 ->
  Spec.soma_ponderada (pre ++ d :: pos) Spec.pesos_1 mod 11 = 1 ->
  Spec.soma_ponderada ((pre ++ d :: pos) ++ [a]) Spec.pesos_2 mod 11 = 0 ->
  validar_cpf (texto ((pre ++ d :: pos) ++ [a; b])) = Retorna true ->
  validar_cpf (texto ((pre ++ d + 2 :: pos) ++ [a; b])) = Retorna true.
Proof.
  intros Hb Ha Hc Hn H7 S1 S2 Hv.
  assert (digito d) as Hd
    by (destruct Hb as [_ F]; apply Forall_app in F as [_ F];
        now inversion_clear F).
  assert (digito (d + 2)) as He by (unfold digito in *; lia).
  destruct (nove_digitos_troca pre pos d (d + 2) Hb He) as (Hb' & _ & _).
  rewrite <- pesar_pesos_1 in S1 by apply Hb.
  rewrite <- pesar_pesos_2 in S2
    by (rewrite length_app, (proj1 Hb); reflexivity).
  rewrite pesar_app, (proj1 Hb) in S2; cbn [pesar] in S2.
  replace (pesar (pre ++ d :: pos) 11 + (a * (11 - Z.of_nat 9) + 0))
    with (pesar (pre ++ d :: pos) 11 + a * 2) in S2 by lia.
  rewrite validar_cpf_texto, conferido_base in *
    by (assumption || now apply onze_de_nove).
  rewrite <- Hv. rewrite !pesar_meio in *. rewrite Hn in *.
  replace (pesar pre 10 + pesar pos (10 - Z.of_nat 5 - 1)
           + (d + 2) * (10 - Z.of_nat 5))
    with (pesar pre 10 + pesar pos (10 - Z.of_nat 5 - 1)
          + d * (10 - Z.of_nat 5) + 10) by lia.
  replace (pesar pre 11 + pesar pos (11 - Z.of_nat 5 - 1)
           + (d + 2) * (11 - Z.of_nat 5) + a * 2)
    with (pesar pre 11 + pesar pos (11 - Z.of_nat 5 - 1)
          + d * (11 - Z.of_nat 5) + a * 2 + 12) by lia.
  rewrite <- (Z.add_mod_idemp_l _ 10), S1 by lia.
  rewrite <- (Z.add_mod_idemp_l _ 12), S2 by lia.
  reflexivity.
Qed.

Lemma erro_no_sexto_digito_aceito_witness :
  nove_digitos ([0; 0; 0; 0; 0] ++ 0 :: [0; 3; 7]) /\ digito 0
  /\ 0 <= 7
  /\ validar_cpf "00000003700" = Retorna true
  /\ validar_cpf "00000203700" = Retorna true.
Proof.
  assert (nove_digitos ([0; 0; 0; 0; 0] ++ 0 :: [0; 3; 7])) as H.
  { split; [reflexivity|].
    repeat (apply Forall_cons; [unfold digito; lia|]); apply Forall_nil. }
  assert (digito 0) as H0 by (unfold digito; lia).
  assert (0 <= 7) as H7 by lia.
  repeat (split; [assumption|]).
  split; [reflexivity|].
  apply (erro_no_sexto_digito_aceito [0; 0; 0; 0; 0] [0; 3; 7] 0 0 0
           H H0 H0 eq_refl H7);
    reflexivity.
Defined.
